(** * Auto-moderation of the Discord bot: word filter and spam tracker

    A shallow embedding of [bot/cogs/moderation.py]: the per-member
    record of recent messages ([_MessageRecord]), the in-memory spam
    tracker of the [Moderation] cog, and the [on_message] listener with
    its two helpers [_handle_word_filter] and [_handle_spam_detection].

    Conventions of the model.
    - Python [int] is [Z]; the reading of [time.monotonic()] is an exact
      rational [Q] (the code only subtracts the interval from it and
      compares with [>=]; rounding of the subtraction is not modelled).
    - [str] is [string]; [str.lower] is modelled on the ASCII range, where
      it maps [A-Z] to [a-z] and leaves every other character alone.
    - The tracker, a [defaultdict] keyed by [(guild_id, user_id)], is a
      [gmap (Z * Z) MessageRecord]; reading a missing key creates it.
    - The Discord API calls are effects: each call is appended to a trace
      with the result the environment gives it, and a failing call raises.
      [discord.Forbidden] is a subclass of [discord.HTTPException]; the
      model's [HTTPException] stands for every HTTP failure that is not
      [Forbidden].
    - Handlers run one at a time, each to completion, as section 5 of the
      specification assumes. *)

From Stdlib Require Import QArith Lqa.
From stdpp Require Import base tactics option list gmap strings.
From Stdlib Require Import String Ascii.

Local Open Scope string_scope.
Local Open Scope Z_scope.

(** ** Strings: [str.lower] and the [in] operator *)

Definition lower_char (c : ascii) : ascii :=
  let n := N_of_ascii c in
  if ((65 <=? n)%N && (n <=? 90)%N)%bool then ascii_of_N (n + 32) else c.

Fixpoint lower (s : string) : string :=
  match s with
  | EmptyString => EmptyString
  | String c s' => String (lower_char c) (lower s')
  end.

(** [str_in needle hay] is Python's [needle in hay] on strings. *)
Fixpoint str_in (needle hay : string) : bool :=
  String.prefix needle hay
  || match hay with
     | EmptyString => false
     | String _ hay' => str_in needle hay'
     end.

(** ** [_MessageRecord] *)

Record MessageRecord := mkRecord { messages : list (string * Q) }.

(** [_MessageRecord()] *)
Definition new_record : MessageRecord := mkRecord [].

(** [self.messages.append((content, now))] *)
Definition add (content : string) (now : Q) (r : MessageRecord) : MessageRecord :=
  mkRecord (messages r ++ [(content, now)]).

(** [t >= cutoff] on timestamps. *)
Definition ge_cutoff (cutoff : Q) (m : string * Q) : bool := Qle_bool cutoff (snd m).

(** [self.messages = [(c, t) for c, t in self.messages if t >= cutoff]] *)
Definition prune (cutoff : Q) (r : MessageRecord) : MessageRecord :=
  mkRecord (List.filter (ge_cutoff cutoff) (messages r)).

Definition same_content (content : string) (m : string * Q) : bool :=
  String.eqb (fst m) content.

Fixpoint sum (l : list Z) : Z :=
  match l with
  | [] => 0
  | x :: l' => x + sum l'
  end.

(** [sum(1 for c, _ in self.messages if c == content)] *)
Definition identical_count (content : string) (r : MessageRecord) : Z :=
  sum (List.map (fun _ => 1) (List.filter (same_content content) (messages r))).

(** ** Messages, configuration and the environment *)

Record Permissions := mkPermissions {
  manage_messages : bool;
  kick_members : bool;
  ban_members : bool
}.

(** [message.author]: for a guild message a [discord.Member]; in a direct
    message the author has no guild permissions and the field is not read. *)
Record Member := mkMember {
  id : Z;
  bot : bool;
  guild_permissions : Permissions
}.

(** [discord.Message]; [guild] is the guild id, [None] for a direct message. *)
Record Message := mkMessage {
  message_id : Z;
  author : Member;
  guild : option Z;
  channel : Z;
  content : string
}.

(** [config.json] as loaded into [self._config]; an absent key is [None]. *)
Record Config := mkConfig {
  word_filter_entry : option (list string);
  spam_threshold_entry : option Z;
  spam_interval_entry : option Z
}.

(** [self._config.get("word_filter", [])] *)
Definition word_filter (cfg : Config) : list string := default [] (word_filter_entry cfg).
(** [self._config.get("spam_threshold", 5)] *)
Definition spam_threshold (cfg : Config) : Z := default 5 (spam_threshold_entry cfg).
(** [self._config.get("spam_interval", 10)] *)
Definition spam_interval (cfg : Config) : Z := default 10 (spam_interval_entry cfg).

(** Failures of a Discord API call: [Forbidden] (the bot lacks the
    permission) and any other [HTTPException]. *)
Inductive Exc := Forbidden | HTTPException.

Inductive Notice := MessageRemoved | SpamDetected.

Inductive ApiCall :=
| MessageDelete (message : Z)                    (* message.delete() *)
| ChannelPurge (chan limit check_author : Z)     (* channel.purge(limit=, check=) *)
| MemberTimeout (member minutes : Z)             (* author.timeout(timedelta(minutes=)) *)
| ChannelSend (chan : Z) (notice : Notice) (mention : Z). (* channel.send(embed=) *)

Inductive LogEntry :=
| CannotDeleteMessage (message chan : Z)
| CannotTimeoutMember (member guild_id : Z).

(** What a handler does to the outside world, in order.  [DeleteAfter d]
    is [warn_msg.delete(delay=d)], which only schedules the removal. *)
Inductive Event :=
| Call (c : ApiCall) (result : option Exc)
| DeleteAfter (delay : Z)
| LogWarning (entry : LogEntry).

(** What the environment answers while one message is handled: the clock
    and, for each API call, success ([None]) or the exception raised. *)
Record Env := mkEnv {
  monotonic : Q;
  delete_result : option Exc;
  purge_result : option Exc;
  timeout_result : option Exc;
  send_result : option Exc
}.

(** The decision of the pipeline, in the words of the specification. *)
Inductive Action := NoAction | WordFilterAction (word : string) | SpamAction.

(** ** The handler monad: cog state, effect trace, exceptions *)

Abbreviation Tracker := (gmap (Z * Z) MessageRecord).

(** [spam_tracker] is [self._spam_tracker]; [trace] collects the effects;
    [dispatched] is a ghost field set when a helper takes its action. *)
Record State := mkState {
  spam_tracker : Tracker;
  trace : list Event;
  dispatched : Action
}.

Inductive Outcome (A : Type) :=
| Returned (a : A)
| Raised (e : Exc).
Arguments Returned {A} a.
Arguments Raised {A} e.

Definition M (A : Type) : Type := State -> Outcome A * State.

Definition ret {A} (a : A) : M A := fun st => (Returned a, st).

Definition bind {A B} (m : M A) (k : A -> M B) : M B :=
  fun st =>
    match m st with
    | (Returned a, st') => k a st'
    | (Raised e, st') => (Raised e, st')
    end.

Declare Scope handler_scope.
Delimit Scope handler_scope with handler.
Notation "x <- m ;; k" := (bind m (fun x => k))
  (at level 100, m at next level, right associativity) : handler_scope.
Notation "m ;; k" := (bind m (fun _ => k))
  (at level 100, right associativity) : handler_scope.

(** [try: body except discord.Forbidden: handler]; any other exception
    goes on to the caller. *)
Definition try_except_Forbidden {A} (body handler : M A) : M A :=
  fun st =>
    match body st with
    | (Raised Forbidden, st') => handler st'
    | other => other
    end.

(** An awaited API call: logged with its result, raising on failure. *)
Definition call (c : ApiCall) (result : option Exc) : M unit :=
  fun st =>
    let st' := mkState (spam_tracker st) (trace st ++ [Call c result]) (dispatched st) in
    match result with
    | None => (Returned tt, st')
    | Some e => (Raised e, st')
    end.

Definition emit (e : Event) : M unit :=
  fun st => (Returned tt, mkState (spam_tracker st) (trace st ++ [e]) (dispatched st)).

Definition set_action (a : Action) : M unit :=
  fun st => (Returned tt, mkState (spam_tracker st) (trace st) a).

Definition update_tracker (f : Tracker -> Tracker) : M unit :=
  fun st => (Returned tt, mkState (f (spam_tracker st)) (trace st) (dispatched st)).

(** The record stored under [key], as [defaultdict.__getitem__] sees it. *)
Definition record_at (key : Z * Z) (tr : Tracker) : MessageRecord :=
  default new_record (tr !! key).

(** [record = self._spam_tracker[key]]: a missing key is created with an
    empty record.  [record] then names the object stored in the dict, so
    the model refers to it by its key. *)
Definition getitem (key : Z * Z) : M unit :=
  update_tracker (fun tr => <[key := record_at key tr]> tr).

(** A method that mutates the stored record in place. *)
Definition mutate (key : Z * Z) (f : MessageRecord -> MessageRecord) : M unit :=
  update_tracker (alter f key).

(** A method that reads the stored record. *)
Definition peek {A} (key : Z * Z) (f : MessageRecord -> A) : M A :=
  fun st => (Returned (f (record_at key (spam_tracker st))), st).

(** [del self._spam_tracker[key]] *)
Definition delitem (key : Z * Z) : M unit := update_tracker (delete key).

(** ** The auto-moderation listener *)

Section Listener.
Local Open Scope handler_scope.

Variable cfg : Config.
Variable env : Env.

(** [Moderation._handle_word_filter]: delete the message and send a
    temporary warning.  [matched_word] is received and not used by the
    body; the ghost field keeps it. *)
Definition _handle_word_filter (message : Message) (matched_word : string) : M unit :=
  set_action (WordFilterAction matched_word) ;;
  deleted <- try_except_Forbidden
               (call (MessageDelete (message_id message)) (delete_result env) ;;
                ret true)
               (emit (LogWarning (CannotDeleteMessage (message_id message) (channel message))) ;;
                ret false) ;;
  if deleted : bool then
    call (ChannelSend (channel message) MessageRemoved (id (author message)))
         (send_result env) ;;
    emit (DeleteAfter 5)
  else
    ret tt.                                   (* [return] in the handler *)

(** [Moderation._handle_spam_detection]; [guild_id] is [message.guild.id]
    of a message whose guild is known to be present. *)
Definition _handle_spam_detection (message : Message) (guild_id : Z) : M unit :=
  let threshold := spam_threshold cfg in
  let interval := spam_interval cfg in
  let key := (guild_id, id (author message)) in
  let now := monotonic env in
  getitem key ;;
  mutate key (prune (now - inject_Z interval)) ;;
  mutate key (add (content message) now) ;;
  count <- peek key (identical_count (content message)) ;;
  if threshold <=? count then
    set_action SpamAction ;;
    (* Purge the spam from the channel (best-effort) *)
    try_except_Forbidden
      (call (ChannelPurge (channel message) (threshold + 5) (id (author message)))
            (purge_result env))
      (ret tt) ;;
    (* Timeout the user for 5 minutes *)
    try_except_Forbidden
      (call (MemberTimeout (id (author message)) 5) (timeout_result env))
      (emit (LogWarning (CannotTimeoutMember (id (author message)) guild_id))) ;;
    (* Notify the channel *)
    call (ChannelSend (channel message) SpamDetected (id (author message)))
         (send_result env) ;;
    emit (DeleteAfter 5) ;;
    (* Reset the tracker for this user *)
    delitem key
  else
    ret tt.

(** [word.lower() in content_lower] *)
Definition word_matches (content_lower word : string) : bool :=
  str_in (lower word) content_lower.

(** The [for word in word_filter] loop of [on_message]; [otherwise] is
    what follows the loop when no word matched. *)
Fixpoint word_filter_loop (message : Message) (content_lower : string)
    (words : list string) (otherwise : M unit) : M unit :=
  match words with
  | [] => otherwise
  | word :: rest =>
      if word_matches content_lower word
      then _handle_word_filter message word   (* one action per message is enough *)
      else word_filter_loop message content_lower rest otherwise
  end.

(** [perms.manage_messages or perms.kick_members or perms.ban_members],
    the test [on_message] makes on the author's guild permissions. *)
Definition has_moderation_permission (perms : Permissions) : bool :=
  manage_messages perms || kick_members perms || ban_members perms.

(** [Moderation.on_message] *)
Definition on_message (message : Message) : M unit :=
  if bot (author message) then ret tt                     (* ignore bots *)
  else
    match guild message with
    | None => ret tt                                      (* ignore DMs *)
    | Some guild_id =>
        if has_moderation_permission (guild_permissions (author message)) then ret tt
        else
          let spam_detection := _handle_spam_detection message guild_id in
          match word_filter cfg with
          | [] => spam_detection                          (* [if word_filter:] *)
          | words =>
              word_filter_loop message (lower (content message)) words spam_detection
          end
    end.
End Listener.

(** ** Handling message events one after the other *)

(** What one call of the listener leaves behind. *)
Record Result := mkResult {
  action : Action;
  effects : list Event;
  raised : option Exc;
  tracker : Tracker
}.

Definition result_of (r : Outcome unit * State) : Result :=
  mkResult (dispatched (snd r)) (trace (snd r))
           (match fst r with Returned _ => None | Raised e => Some e end)
           (spam_tracker (snd r)).

(** The listener called with the cog's tracker [tr] on one message event. *)
Definition handle (cfg : Config) (tr : Tracker) (ev : Message * Env) : Result :=
  result_of (on_message cfg (snd ev) (fst ev) (mkState tr [] NoAction)).

(** The gateway delivers the events in order; an exception in one call of
    the listener is reported by the library and the next event is handled
    with the tracker as that call left it. *)
Fixpoint run (cfg : Config) (tr : Tracker) (evs : list (Message * Env)) : list Result :=
  match evs with
  | [] => []
  | ev :: rest =>
      let r := handle cfg tr ev in
      r :: run cfg (tracker r) rest
  end.

Definition final_tracker (tr : Tracker) (rs : list Result) : Tracker :=
  List.last (List.map tracker rs) tr.

(** The author is ignored by the listener: a bot, a direct message, or a
    holder of a moderation permission. *)
Definition exempt (message : Message) : bool :=
  bot (author message)
  || match guild message with None => true | Some _ => false end
  || has_moderation_permission (guild_permissions (author message)).

(** The first configured word that matches, in list order. *)
Definition first_match (cfg : Config) (message : Message) : option string :=
  List.find (word_matches (lower (content message))) (word_filter cfg).

(** The record reached from an empty one by a sequence of [add] calls. *)
Definition after_adds (calls : list (string * Q)) : MessageRecord :=
  List.fold_left (fun r m => add (fst m) (snd m) r) calls new_record.

(** The record a spam check leaves under the author's key when it arrives
    at [monotonic env]: the stored record pruned, then the message added. *)
Definition checked_record (cfg : Config) (env : Env) (message : Message)
    (guild_id : Z) (tr : Tracker) : MessageRecord :=
  add (content message) (monotonic env)
      (prune (monotonic env - inject_Z (spam_interval cfg))
             (record_at (guild_id, id (author message)) tr)).

(** The effects that belong to the word filter. *)
Definition word_filter_effect (e : Event) : bool :=
  match e with
  | Call (MessageDelete _) _ => true
  | Call (ChannelSend _ MessageRemoved _) _ => true
  | DeleteAfter _ => true
  | LogWarning (CannotDeleteMessage _ _) => true
  | _ => false
  end.





(** ** Data of the scenarios *)

Module Scenario.
(** [threshold=3, interval=10s], with the word filter of the test
    configuration. *)
Definition config : Config :=
  mkConfig (Some ["badword1"; "badword2"]) (Some 3) (Some 10).

Definition no_permissions : Permissions := mkPermissions false false false.
Definition user : Member := mkMember 7 false no_permissions.
Definition moderator : Member := mkMember 8 false (mkPermissions true false false).

(** A message of [user] in guild 1, channel 50. *)
Definition says (number : Z) (text : string) : Message :=
  mkMessage number user (Some 1) 50 text.

(** Every API call succeeds at clock reading [t]. *)
Definition calm (t : Q) : Env := mkEnv t None None None None.

(** The delete of the message fails with an HTTP error that is not
    [Forbidden]. *)
Definition delete_fails : Env := mkEnv 0 (Some HTTPException) None None None.

(** At clock reading [t], the purge fails for lack of permission. *)
Definition purge_forbidden (t : Q) : Env := mkEnv t None (Some Forbidden) None None.

(** At clock reading [t], the purge fails with another HTTP error. *)
Definition purge_fails (t : Q) : Env := mkEnv t None (Some HTTPException) None None.


(** The tracker after [user] said ["hi"] at t=0 and t=2. *)
Definition two_his : Tracker :=
  final_tracker ∅ (run config ∅ [(says 1 "hi", calm 0); (says 2 "hi", calm 2)]).

(** The tracker after [user] said ["hi"] at t=0. *)
Definition one_hi : Tracker :=
  final_tracker ∅ (run config ∅ [(says 1 "hi", calm 0)]).

(** The word filter holds ["spam"]; two identical messages are spam. *)
Definition spam_word_config : Config := mkConfig (Some ["spam"]) (Some 2) None.

(** A configuration whose word filter holds the empty string. *)
Definition empty_word_config : Config := mkConfig (Some [""]) (Some 1) (Some 10).
End Scenario.

From Stdlib Require Import Sorted.

(** * The slash commands and their helpers *)

(** ** The duration parser of [/mute] *)

(** The argument of [/mute], which the code takes apart character by
    character, is a [str] given by its code points; the strings the
    commands only pass along stay [string].  The code points of a string of
    ASCII characters: *)
Definition codepoints (s : string) : list N :=
  List.map N_of_ascii (list_ascii_of_string s).

(** [str.isspace] on one character, which is what [str.strip] removes and
    what [\s] matches in a [str] pattern: the characters of bidirectional
    type WS, B or S and those of category Zs.  Tab to carriage return, the
    four separators, the space, U+0085, U+00A0, U+1680, U+2000 to U+200A,
    U+2028, U+2029, U+202F, U+205F and U+3000. *)
Definition isspace (c : N) : bool :=
  (((9 <=? c) && (c <=? 13)) || ((28 <=? c) && (c <=? 32))
   || (c =? 133) || (c =? 160) || (c =? 5760)
   || ((8192 <=? c) && (c <=? 8202))
   || (c =? 8232) || (c =? 8233) || (c =? 8239) || (c =? 8287) || (c =? 12288))%N.

(** What the interpreter that runs the bot decides: the decimal digits of
    its Unicode database with their values ([unicodedata.decimal]; these
    are the characters [\d] matches in a [str] pattern, and the digits
    [int] reads), and [sys.get_int_max_str_digits()], which is [0] when
    conversions are not limited. *)
Record Interpreter := mkInterpreter {
  decimal : N -> option N;
  int_max_str_digits : N
}.

(** [str.isdecimal] on one character; [\d]. *)
Definition isdecimal (py : Interpreter) (c : N) : bool :=
  match decimal py c with Some _ => true | None => false end.

Fixpoint lstrip (s : list N) : list N :=
  match s with
  | [] => []
  | c :: s' => if isspace c then lstrip s' else s
  end.

Fixpoint rstrip (s : list N) : list N :=
  match s with
  | [] => []
  | c :: s' =>
      match rstrip s' with
      | [] => if isspace c then [] else [c]
      | rest => c :: rest
      end
  end.

(** [raw.strip()] *)
Definition strip (s : list N) : list N := rstrip (lstrip s).

(** The values of [_DURATION_UNITS]. *)
Inductive DurationUnit := Seconds | Minutes | Hours | Days.

(** [_DURATION_UNITS[unit]]; [None] is the [KeyError] of a key that is not
    there.  The keys are [s], [m], [h] and [d]. *)
Definition _DURATION_UNITS (unit : N) : option DurationUnit :=
  (if unit =? 115 then Some Seconds
   else if unit =? 109 then Some Minutes
   else if unit =? 104 then Some Hours
   else if unit =? 100 then Some Days
   else None)%N.

(** The class [[smhd]] under [re.IGNORECASE]: the four letters, their
    capitals, and U+017F, the long s, which the flag matches with [s]. *)
Definition in_unit_class (c : N) : bool :=
  List.existsb (N.eqb c) [115; 109; 104; 100; 83; 77; 72; 68; 383]%N.

(** [([smhd])$] at the end of the pattern: [$] matches at the end of the
    string and before a newline that ends it. *)
Definition unit_at_end (s : list N) : option N :=
  match s with
  | [u] => if in_unit_class u then Some u else None
  | [u; nl] => if in_unit_class u && (nl =? 10)%N then Some u else None
  | _ => None
  end.

(** [\s*([smhd])$]: the longest run of whitespace is tried first, then the
    shorter ones. *)
Fixpoint gap_then_unit (s : list N) : option N :=
  match s with
  | [] => None
  | c :: s' =>
      match (if isspace c then gap_then_unit s' else None) with
      | Some u => Some u
      | None => unit_at_end s
      end
  end.

(** [_DURATION_RE.match(s)] for [^(\d+)\s*([smhd])$]: the two groups of
    the first match the engine finds, which tries the longest run of
    digits first, then the shorter ones. *)
Fixpoint _DURATION_RE_match (py : Interpreter) (s : list N) : option (list N * N) :=
  match s with
  | [] => None
  | c :: s' =>
      if isdecimal py c then
        match _DURATION_RE_match py s' with
        | Some (digits, u) => Some (c :: digits, u)
        | None =>
            match gap_then_unit s' with
            | Some u => Some ([c], u)
            | None => None
            end
        end
      else None
  end.

(** The exceptions the parser can raise. *)
Inductive BuiltinError := OverflowError | ValueError | KeyError.

(** A value or an exception. *)
Inductive Checked (A : Type) :=
| Value (a : A)
| Raises (e : BuiltinError).
Arguments Value {A} a.
Arguments Raises {A} e.

(** The number a [str] of decimal digits writes, each digit read by its
    decimal value, whatever its script. *)
Definition int_of_digits (py : Interpreter) (digits : list N) : Z :=
  List.fold_left (fun acc c => 10 * acc + Z.of_N (default 0%N (decimal py c))) digits 0.

(** Whether [int] refuses a [str] of that many digits: above 640 digits
    the conversion is checked against the limit of the interpreter, when
    there is one. *)
Definition exceeds_int_max_str_digits (py : Interpreter) (digits : list N) : bool :=
  let n := N.of_nat (List.length digits) in
  ((640 <? n) && (0 <? int_max_str_digits py) && (int_max_str_digits py <? n))%N.

(** [int(digits)] for a [str] of decimal digits: the number, or
    [ValueError] when there are more digits than the interpreter
    converts. *)
Definition int (py : Interpreter) (digits : list N) : Checked Z :=
  if exceeds_int_max_str_digits py digits then Raises ValueError
  else Value (int_of_digits py digits).

(** [str.lower] on one character of the class: a capital of the ASCII
    range becomes its small letter; the long s is a small letter already
    and stays what it is. *)
Definition lower_codepoint (c : N) : N :=
  (if (65 <=? c) && (c <=? 90) then c + 32 else c)%N.

Definition seconds_per (u : DurationUnit) : Z :=
  match u with Seconds => 1 | Minutes => 60 | Hours => 3600 | Days => 86400 end.

(** [timedelta] called with the keyword of the unit set to an [int]
    value, as its number of seconds; the constructor raises [OverflowError] when the normalised
    number of days has a magnitude above 999999999. *)
Definition timedelta (u : DurationUnit) (value : Z) : Checked Z :=
  let total := value * seconds_per u in
  if 999999999 <? Z.abs (total / 86400) then Raises OverflowError else Value total.

(** [_MAX_TIMEOUT = timedelta(days=28)] *)
Definition _MAX_TIMEOUT : Z := 28 * 86400.

(** [_parse_duration]: [None] when the string cannot be parsed; the
    exception of [int], of the lookup of the unit, or of [timedelta], in
    that order, when one of them raises. *)
Definition _parse_duration (py : Interpreter) (raw : list N) : Checked (option Z) :=
  match _DURATION_RE_match py (strip raw) with
  | None => Value None
  | Some (digits, letter) =>
      match int py digits with
      | Raises e => Raises e
      | Value value =>
          let unit := lower_codepoint letter in
          match _DURATION_UNITS unit with
          | None => Raises KeyError
          | Some u =>
              match timedelta u value with
              | Value delta => Value (Some delta)
              | Raises e => Raises e
              end
          end
      end
  end.

(** No decimal digit is whitespace or a letter of the class: what every
    version of the Unicode database satisfies. *)
Definition digits_apart (py : Interpreter) : Prop :=
  forall c : N, isdecimal py c = true -> isspace c = false /\ in_unit_class c = false.

(** ** Embeds *)

(** The colours of [discord.Color] the helpers use. *)
Inductive Color := Green | Red | Blue | Orange | Yellow | Greyple.

(** A value interpolated into the text of an embed: a string, a string
    given by its code points, [str(member)], [member.mention], or an
    integer. *)
Inductive Part :=
| Lit (text : string)
| Text (text : list N)
| Str (member : Z)
| Mention (member : Z)
| Num (n : Z).
Coercion Lit : string >-> Part.

(** A [discord.Embed] as the helpers build it: the title, the colour, and
    the values interpolated into its description, fields and footer, in
    order.  The literal text around them and the timestamp are left out. *)
Record Embed := mkEmbed {
  title : string;
  color : Color;
  data : list Part
}.

Definition success_embed (title : string) (data : list Part) : Embed :=
  mkEmbed title Green data.
Definition error_embed (title : string) (data : list Part) : Embed :=
  mkEmbed title Red data.
Definition info_embed (title : string) (data : list Part) : Embed :=
  mkEmbed title Blue data.
Definition warning_embed (title : string) (data : list Part) : Embed :=
  mkEmbed title Orange data.

(** [_MOD_ACTION_COLORS], in the order of the dict. *)
Definition _MOD_ACTION_COLORS : list (string * Color) :=
  [("ban", Red); ("unban", Green); ("kick", Orange); ("mute", Orange);
   ("unmute", Green); ("warn", Yellow); ("timeout", Orange)].

(** The loop of [mod_log_embed] that picks the colour: the first keyword
    found in the lowercased action, grey when there is none. *)
Fixpoint mod_log_color (action_lower : string) (table : list (string * Color)) : Color :=
  match table with
  | [] => Greyple
  | (keyword, col) :: rest =>
      if str_in keyword action_lower then col else mod_log_color action_lower rest
  end.

(** [mod_log_embed(action, moderator, target, reason)] *)
Definition mod_log_embed (action : string) (moderator target : Z) (reason : Part) : Embed :=
  mkEmbed action (mod_log_color (lower action) _MOD_ACTION_COLORS)
          [Str moderator; Num moderator; Str target; Num target; reason;
           Num moderator; Num target].

(** ** The slash commands *)

Record TextChannel := mkTextChannel {
  channel_id : Z;
  channel_name : string
}.

(** [interaction.guild]: [bot_outranks target] is
    [guild.me.top_role > target.top_role]. *)
Record Guild := mkGuild {
  guild_ident : Z;
  guild_name : string;
  text_channels : list TextChannel;
  bot_outranks : Z -> bool
}.

(** A row of the table [warnings]. *)
Record Warning := mkWarning {
  warning_id : Z;
  warning_guild : Z;
  warning_user : Z;
  warning_moderator : Z;
  warning_reason : string;
  warning_created_at : Z
}.

(** The awaited calls of the commands. *)
Inductive Request :=
| ResponseSend (embed : Embed) (ephemeral : bool)   (* interaction.response.send_message *)
| FollowupSend (embed : Embed) (ephemeral : bool)   (* interaction.followup.send *)
| MemberSend (member : Z) (embed : Embed)           (* member.send *)
| MemberKick (member : Z) (reason : string)         (* member.kick *)
| MemberBan (member : Z) (reason : string)          (* member.ban *)
| MemberMute (member : Z) (seconds : Z) (muted_by : Z)  (* member.timeout *)
| TextChannelSend (chan : Z) (embed : Embed).       (* channel.send *)

Inductive Happened :=
| Requested (r : Request) (result : option Exc)
| Logged (entry : string).

(** The exceptions a command can end with. *)
Inductive PyExc :=
| ApiError (e : Exc)
| Builtin (e : BuiltinError).

Inductive Ended (A : Type) :=
| Done (a : A)
| Failed (e : PyExc).
Arguments Done {A} a.
Arguments Failed {A} e.

(** What a command sees and changes: the rows of [warnings] and what has
    happened so far.  Access to the database is taken to succeed. *)
Record World := mkWorld {
  warnings_table : list Warning;
  happened : list Happened
}.

(** The environment of a command: the answer to each call, the clock of
    the database, and whether the interaction was already answered. *)
Record Oracle := mkOracle {
  answer : Request -> option Exc;
  current_timestamp : Z;
  response_is_done : bool
}.

Definition Cmd (A : Type) : Type := World -> Ended A * World.

Definition cmd_ret {A} (a : A) : Cmd A := fun w => (Done a, w).

Definition cmd_bind {A B} (m : Cmd A) (k : A -> Cmd B) : Cmd B :=
  fun w =>
    match m w with
    | (Done a, w') => k a w'
    | (Failed e, w') => (Failed e, w')
    end.

Declare Scope command_scope.
Delimit Scope command_scope with command.
Notation "x <- m ;; k" := (cmd_bind m (fun x => k))
  (at level 100, m at next level, right associativity) : command_scope.
Notation "m ;; k" := (cmd_bind m (fun _ => k))
  (at level 100, right associativity) : command_scope.

(** An awaited call: recorded with the answer of the environment. *)
Definition request (o : Oracle) (r : Request) : Cmd unit :=
  fun w =>
    let w' := mkWorld (warnings_table w) (happened w ++ [Requested r (answer o r)]) in
    match answer o r with
    | None => (Done tt, w')
    | Some e => (Failed (ApiError e), w')
    end.

Definition logged (entry : string) : Cmd unit :=
  fun w => (Done tt, mkWorld (warnings_table w) (happened w ++ [Logged entry])).

(** [try: body except (discord.Forbidden, discord.HTTPException): pass] *)
Definition best_effort (body : Cmd unit) : Cmd unit :=
  fun w =>
    match body w with
    | (Failed (ApiError _), w') => (Done tt, w')
    | other => other
    end.

(** [raise] *)
Definition cmd_raise {A} (e : PyExc) : Cmd A := fun w => (Failed e, w).

(** A [Checked] value inside a command. *)
Definition checked {A} (c : Checked A) : Cmd A :=
  match c with
  | Value a => cmd_ret a
  | Raises e => cmd_raise (Builtin e)
  end.

(** *** The table of warnings ([bot/utils/database.py]) *)

(** The row id an [INTEGER PRIMARY KEY AUTOINCREMENT] column gives to the
    next row of a table from which no row is ever deleted. *)
Definition next_warning_id (rows : list Warning) : Z :=
  1 + List.fold_right Z.max 0 (List.map warning_id rows).

(** The [WHERE guild_id = ? AND user_id = ?] of the two queries. *)
Definition warning_of (guild_id user_id : Z) (row : Warning) : bool :=
  (warning_guild row =? guild_id) && (warning_user row =? user_id).

(** [add_warning]: insert a row and return its row id. *)
Definition add_warning (o : Oracle) (guild_id user_id moderator_id : Z) (reason : string)
    : Cmd Z :=
  fun w =>
    let row := mkWarning (next_warning_id (warnings_table w)) guild_id user_id
                         moderator_id reason (current_timestamp o) in
    (Done (warning_id row), mkWorld (warnings_table w ++ [row]) (happened w)).

(** [get_warning_count]: [SELECT COUNT( * )] of the rows of the user in the
    guild. *)
Definition get_warning_count (guild_id user_id : Z) : Cmd Z :=
  fun w =>
    (Done (Z.of_nat (List.length (List.filter (warning_of guild_id user_id)
                                              (warnings_table w)))), w).

Section Commands.
Local Open Scope command_scope.

(** [self._config.get("mod_log_channel")], [None] when the key is absent. *)
Variable mod_log_channel_entry : option string.
Variable o : Oracle.
Variable py : Interpreter.

(** [discord.utils.get(guild.text_channels, name=wanted)]: the first
    channel of that name. *)
Definition get_text_channel (guild : Guild) (wanted : string) : option TextChannel :=
  List.find (fun ch => String.eqb (channel_name ch) wanted) (text_channels guild).

(** [Moderation._send_mod_log] *)
Definition _send_mod_log (guild : Guild) (embed : Embed) : Cmd unit :=
  let wanted := default "mod-log" mod_log_channel_entry in
  match get_text_channel guild wanted with
  | None => logged wanted                (* log.warning, then [return] *)
  | Some ch => request o (TextChannelSend (channel_id ch) embed)
  end.

(** [Moderation._can_action_member] *)
Definition _can_action_member (guild : Guild) (target : Z) : bool :=
  bot_outranks guild target.

(** [/kick]; [moderator] is [interaction.user]. *)
Definition kick (guild : Guild) (moderator member : Z) (reason : string) : Cmd unit :=
  if negb (_can_action_member guild member) then
    request o (ResponseSend (error_embed "Cannot Kick" []) true)
  else
    (* DM the user before kicking (best-effort) *)
    best_effort
      (request o (MemberSend member
                    (warning_embed "You have been kicked"
                                   [Lit (guild_name guild); Lit reason]))) ;;
    request o (MemberKick member reason) ;;
    _send_mod_log guild (mod_log_embed "Member Kicked" moderator member reason) ;;
    request o (ResponseSend (success_embed "Member Kicked" [Str member; Lit reason]) false).

(** [/ban] *)
Definition ban (guild : Guild) (moderator member : Z) (reason : string) : Cmd unit :=
  if negb (_can_action_member guild member) then
    request o (ResponseSend (error_embed "Cannot Ban" []) true)
  else
    (* DM the user before banning (best-effort) *)
    best_effort
      (request o (MemberSend member
                    (warning_embed "You have been banned"
                                   [Lit (guild_name guild); Lit reason]))) ;;
    request o (MemberBan member reason) ;;
    _send_mod_log guild (mod_log_embed "Member Banned" moderator member reason) ;;
    request o (ResponseSend (success_embed "Member Banned" [Str member; Lit reason]) false).

(** [/mute]; [duration] by its code points. *)
Definition mute (guild : Guild) (moderator member : Z) (duration : list N) : Cmd unit :=
  if negb (_can_action_member guild member) then
    request o (ResponseSend (error_embed "Cannot Mute" []) true)
  else
    delta <- checked (_parse_duration py duration) ;;
    match delta with
    | None => request o (ResponseSend (error_embed "Invalid Duration" []) true)
    | Some delta =>
        if _MAX_TIMEOUT <? delta then
          request o (ResponseSend (error_embed "Duration Too Long" []) true)
        else
          request o (MemberMute member delta moderator) ;;
          _send_mod_log guild
            (mod_log_embed "Member Muted" moderator member
                           (Text (codepoints "Duration: " ++ duration))) ;;
          request o (ResponseSend (success_embed "Member Muted"
                                                 [Mention member; Text duration]) false)
    end.

(** [/warn] *)
Definition warn (guild : Guild) (moderator member : Z) (reason : string) : Cmd unit :=
  (* Persist warning *)
  add_warning o (guild_ident guild) member moderator reason ;;
  total <- get_warning_count (guild_ident guild) member ;;
  (* DM the user (best-effort) *)
  best_effort
    (request o (MemberSend member
                  (warning_embed "You have been warned"
                                 [Lit (guild_name guild); Lit reason; Num total]))) ;;
  _send_mod_log guild (mod_log_embed "Member Warned" moderator member reason) ;;
  request o (ResponseSend (success_embed "Member Warned"
                                         [Mention member; Lit reason; Num total]) false).
End Commands.

(** *** The error handler of the cog *)

(** What a command raised, wrapped by the library: the classes of
    [app_commands] the handlers test for.  [MissingPermissions] and
    [BotMissingPermissions] are subclasses of [CheckFailure];
    [CommandInvokeError] carries the exception of the command in
    [original], which may be a [discord.NotFound]. *)
Inductive Original := NotFound | UnknownException.

Inductive AppCommandError :=
| MissingPermissions (missing_permissions : list string)
| BotMissingPermissions (missing_permissions : list string)
| CheckFailure
| CommandInvokeError (original : Original)
| AppCommandErrorOther.

(** [isinstance(error, app_commands.MissingPermissions)] *)
Definition is_MissingPermissions (error : AppCommandError) : bool :=
  match error with MissingPermissions _ => true | _ => false end.

(** [isinstance(error, app_commands.CheckFailure)] *)
Definition is_CheckFailure (error : AppCommandError) : bool :=
  match error with
  | MissingPermissions _ | BotMissingPermissions _ | CheckFailure => true
  | _ => false
  end.

(** [isinstance(error, app_commands.BotMissingPermissions)] *)
Definition is_BotMissingPermissions (error : AppCommandError) : bool :=
  match error with BotMissingPermissions _ => true | _ => false end.

(** [isinstance(getattr(error, "original", error), discord.NotFound)] *)
Definition original_is_NotFound (error : AppCommandError) : bool :=
  match error with CommandInvokeError NotFound => true | _ => false end.

(** A handler ends normally or raises the error again. *)
Definition ErrCmd (A : Type) : Type := World -> (Ended A + AppCommandError) * World.

(** An awaited call inside an error handler. *)
Definition err_request (o : Oracle) (r : Request) : ErrCmd unit :=
  fun w => let '(res, w') := request o r w in (inl res, w').

(** The reply of the handlers: a follow-up when the interaction was already
    answered, the first response otherwise; ephemeral in both cases. *)
Definition respond_or_followup (o : Oracle) (embed : Embed) : ErrCmd unit :=
  if response_is_done o
  then err_request o (FollowupSend embed true)
  else err_request o (ResponseSend embed true).

(** [on_permission_error] of [bot/utils/permissions.py] *)
Definition on_permission_error (o : Oracle) (error : AppCommandError) : ErrCmd unit :=
  match error with
  | MissingPermissions missing =>
      respond_or_followup o (error_embed "Permission Denied" (List.map Lit missing))
  | _ =>
      if is_CheckFailure error then
        respond_or_followup o (error_embed "Permission Denied" [])
      else
        (* Not a permission error -- re-raise so other handlers can catch it. *)
        fun w => (inr error, w)
  end.

(** [Moderation.cog_app_command_error] *)
Definition cog_app_command_error (o : Oracle) (error : AppCommandError) : ErrCmd unit :=
  if is_MissingPermissions error || is_CheckFailure error then
    on_permission_error o error
  else if is_BotMissingPermissions error then
    respond_or_followup o
      (error_embed "Bot Missing Permissions"
         (match error with
          | BotMissingPermissions missing => List.map Lit missing
          | _ => []
          end))
  else if original_is_NotFound error then
    respond_or_followup o (error_embed "Member Not Found" [])
  else
    fun w =>
      let w' := mkWorld (warnings_table w)
                        (happened w ++ [Logged "Unhandled error in moderation cog"]) in
      respond_or_followup o (error_embed "Unexpected Error" []) w'.

(** The world a command starts in: the rows stored so far, nothing done. *)
Definition at_start (rows : list Warning) : World := mkWorld rows [].

(** [is_moderator] of [bot/utils/permissions.py]: the predicate of the
    check, which passes or raises [MissingPermissions]. *)
Definition is_moderator (perms : Permissions) : bool + AppCommandError :=
  if manage_messages perms || kick_members perms || ban_members perms
  then inl true
  else inr (MissingPermissions ["manage_messages"; "kick_members"; "ban_members"]).

(** ** Data for the examples of the commands *)

Module Staff.
(** A guild with two channels named ["mod-log"]; the bot outranks every
    member but member 99. *)
Definition guild : Guild :=
  mkGuild 1 "G" [mkTextChannel 5 "general"; mkTextChannel 6 "mod-log";
                 mkTextChannel 7 "mod-log"]
          (fun target => negb (target =? 99)).

(** Every call succeeds. *)
Definition calm : Oracle := mkOracle (fun _ => None) 1000 false.

(** No DM can be delivered; every other call succeeds. *)
Definition closed_dms : Oracle :=
  mkOracle (fun r => match r with MemberSend _ _ => Some Forbidden | _ => None end)
           1000 false.

(** Removing or muting a member fails; every other call succeeds. *)
Definition powerless : Oracle :=
  mkOracle (fun r => match r with
                     | MemberKick _ _ | MemberBan _ _ | MemberMute _ _ _ => Some Forbidden
                     | _ => None
                     end)
           1000 false.

(** One warning of member 20 in guild 1, and one of member 21. *)
Definition rows : list Warning :=
  [mkWarning 4 1 20 3 "x" 5; mkWarning 7 1 21 3 "y" 6].

(** An interpreter for the examples: the default limit of 4300 digits,
    and a table of decimal digits cut down to the digits the examples use,
    the ASCII ones, U+0030 to U+0039, and the Arabic-Indic ones, U+0660 to
    U+0669. *)
Definition python : Interpreter :=
  mkInterpreter
    (fun c => if ((48 <=? c) && (c <=? 57))%N then Some (c - 48)%N
              else if ((1632 <=? c) && (c <=? 1641))%N then Some (c - 1632)%N
              else None)
    4300.
End Staff.

(** ** The order of the stored timestamps *)

Definition timestamps (r : MessageRecord) : list Q := List.map snd (messages r).

(** The stored timestamps never decrease, and none is later than [now]. *)
Definition chronological (now : Q) (r : MessageRecord) : Prop :=
  Sorted.StronglySorted Qle (timestamps r)
  /\ List.Forall (fun t => (t <= now)%Q) (timestamps r).

(** * Properties *)

(** ** Strings *)

Example lower_example : lower "This is SPAM" = "this is spam".
Proof. reflexivity. Qed.

Example str_in_example : str_in "spam" "this is spam" = true.
Proof. reflexivity. Qed.

Example prune_example :
  messages (prune 5 (add "hi" 15 (add "hi" 0 new_record))) = [("hi", 15%Q)].
Proof. reflexivity. Qed.

Lemma lower_char_idem c : lower_char (lower_char c) = lower_char c.
Proof. destruct c as [[] [] [] [] [] [] [] []]; reflexivity. Qed.

Lemma lower_idem s : lower (lower s) = lower s.
Proof. induction s as [|c s IH]; simpl; [done|]. by rewrite lower_char_idem, IH. Qed.

Lemma prefix_empty s : String.prefix "" s = true.
Proof. by destruct s. Qed.

Lemma str_in_empty s : str_in "" s = true.
Proof. destruct s; reflexivity. Qed.

Lemma append_cons b n post : (String b n ++ post)%string = String b (n ++ post).
Proof. reflexivity. Qed.

Lemma prefix_append n h : String.prefix n h = true <-> exists post, h = n ++ post.
Proof.
  revert h. induction n as [|a n IH]; intros h.
  - rewrite prefix_empty. split; [intros _; by exists h | done].
  - destruct h as [|b h]; simpl; [split; [done | by intros [post ?]]|].
    setoid_rewrite append_cons.
    destruct (Ascii.ascii_dec a b) as [->|Hne].
    + rewrite IH. split; intros [post Hp]; exists post; congruence.
    + split; [done | intros [post Hp]; congruence].
Qed.

Lemma str_in_nil n : str_in n "" = String.prefix n "".
Proof. unfold str_in. apply orb_false_r. Qed.

Lemma str_in_cons n b h : str_in n (String b h) = String.prefix n (String b h) || str_in n h.
Proof. reflexivity. Qed.

(** [str_in] is the substring test. *)
Lemma str_in_substring n h :
  str_in n h = true <-> exists pre post, h = pre ++ n ++ post.
Proof.
  induction h as [|b h IH].
  - rewrite str_in_nil, prefix_append. split.
    + intros [post Hp]. by exists "", post.
    + intros [pre [post Hp]]. destruct pre; [by exists post|done].
  - rewrite str_in_cons, orb_true_iff, IH, prefix_append. split.
    + intros [[post Hp]|[pre [post Hp]]].
      * by exists "", post.
      * exists (String b pre), post. rewrite append_cons. by rewrite Hp.
    + intros [pre [post Hp]]. destruct pre as [|c pre].
      * left. by exists post.
      * right. exists pre, post. rewrite append_cons in Hp. congruence.
Qed.

(** ** The record of one member *)

Lemma sum_ones {A} (l : list A) : sum (List.map (fun _ => 1) l) = Z.of_nat (List.length l).
Proof. induction l as [|x l IH]; simpl sum; [done|]. rewrite IH. simpl List.length. lia. Qed.

Lemma identical_count_length content r :
  identical_count content r =
  Z.of_nat (List.length (List.filter (same_content content) (messages r))).
Proof. apply sum_ones. Qed.

Lemma identical_count_nonneg content r : 0 <= identical_count content r.
Proof. rewrite identical_count_length. lia. Qed.


Lemma identical_count_add content c t r :
  identical_count content (add c t r) =
  identical_count content r + (if decide (c = content) then 1 else 0).
Proof.
  rewrite !identical_count_length. unfold add. simpl messages.
  rewrite List.filter_app, length_app. simpl List.filter.
  unfold same_content at 2. simpl fst.
  destruct (String.eqb_spec c content); case_decide; try done; simpl List.length; lia.
Qed.



Lemma messages_after_adds calls : messages (after_adds calls) = calls.
Proof.
  unfold after_adds.
  assert (forall r, messages (List.fold_left (fun r m => add (fst m) (snd m) r) calls r)
                    = (messages r ++ calls)%list) as Hgen.
  { induction calls as [|[c t] calls IH]; intros r; simpl.
    - by rewrite app_nil_r.
    - rewrite IH. simpl. by rewrite <- app_assoc. }
  apply Hgen.
Qed.

Lemma ge_cutoff_iff cutoff m : ge_cutoff cutoff m = true <-> (cutoff <= snd m)%Q.
Proof. apply Qle_bool_iff. Qed.

Lemma filter_sublist {A} (f : A -> bool) (l : list A) : List.filter f l `sublist_of` l.
Proof.
  induction l as [|x l IH]; simpl; [constructor|].
  destruct (f x); by constructor.
Qed.

Lemma filter_greatest {A} (f : A -> bool) (k l : list A) :
  k `sublist_of` l -> List.Forall (fun x => f x = true) k -> k `sublist_of` List.filter f l.
Proof.
  induction 1 as [|x k l Hkl IH|x k l Hkl IH]; intros Hall; simpl.
  - constructor.
  - inversion Hall as [|? ? Hx Hk]; subst. rewrite Hx. constructor. by apply IH.
  - destruct (f x); [constructor|]; by apply IH.
Qed.

(** C2. [prune(cutoff)] removes exactly the stored entries whose timestamp
    is strictly less than the cutoff.  For every sequence of [add] calls
    (monotone timestamps or not), the entries left by [prune] are entries
    that were stored, in their stored order; each has [timestamp >= cutoff];
    an entry is left if and only if it was stored with [timestamp >= cutoff],
    so every entry with [timestamp < cutoff] is gone; and no surviving entry
    is lost: any selection of stored entries, in stored order, whose
    timestamps are all [>= cutoff] is found, in that order, among the
    entries left. *)
Theorem prune_window_correct (calls : list (string * Q)) (cutoff : Q) :
  let before := messages (after_adds calls) in
  let after := messages (prune cutoff (after_adds calls)) in
  before = calls
  /\ after `sublist_of` before
  /\ List.Forall (fun m => (cutoff <= snd m)%Q) after
  /\ (forall m, In m after <-> In m before /\ (cutoff <= snd m)%Q)
  /\ (forall m, In m before -> (snd m < cutoff)%Q -> ~ In m after)
  /\ (forall kept, kept `sublist_of` before ->
        List.Forall (fun m => (cutoff <= snd m)%Q) kept ->
        kept `sublist_of` after).
Proof.
  intros before after. subst before after. unfold prune. simpl messages.
  rewrite messages_after_adds.
  assert (forall m, In m (List.filter (ge_cutoff cutoff) calls)
                    <-> In m calls /\ (cutoff <= snd m)%Q) as Hin.
  { intros m. rewrite List.filter_In, ge_cutoff_iff. tauto. }
  split_and!.
  - done.
  - apply filter_sublist.
  - apply List.Forall_forall. intros m Hm. by apply Hin in Hm as [_ ?].
  - exact Hin.
  - intros m Hm Hlt Hafter. apply Hin in Hafter as [_ Hle].
    apply (Qlt_not_le _ _ Hlt Hle).
  - intros kept Hsub Hall. apply filter_greatest; [done|].
    eapply List.Forall_impl; [|exact Hall]. intros m Hm. by apply ge_cutoff_iff.
Qed.

(** ** The listener *)

Lemma exempt_false message :
  exempt message = false <->
  bot (author message) = false
  /\ (exists guild_id, guild message = Some guild_id)
  /\ has_moderation_permission (guild_permissions (author message)) = false.
Proof.
  unfold exempt. rewrite !orb_false_iff.
  destruct (guild message) as [g|]; split.
  - intros [[? _] ?]. eauto.
  - intros (? & _ & ?). done.
  - intros [[_ ?] _]. done.
  - intros (_ & [g ?] & _). done.
Qed.

Lemma loop_no_match env message content_lower words otherwise :
  List.find (word_matches content_lower) words = None ->
  word_filter_loop env message content_lower words otherwise = otherwise.
Proof.
  induction words as [|w words IH]; simpl; [done|].
  destruct (word_matches content_lower w); [done|]. exact IH.
Qed.

Lemma loop_match env message content_lower words otherwise w :
  List.find (word_matches content_lower) words = Some w ->
  word_filter_loop env message content_lower words otherwise
  = _handle_word_filter env message w.
Proof.
  induction words as [|w' words IH]; simpl; [done|].
  destruct (word_matches content_lower w'); [congruence|]. exact IH.
Qed.

Lemma on_message_exempt cfg env message st :
  exempt message = true -> on_message cfg env message st = (Returned tt, st).
Proof.
  unfold exempt, on_message. intros H.
  destruct (bot (author message)); [done|].
  destruct (guild message); [|done].
  simpl in H. by rewrite H.
Qed.

Lemma on_message_spam cfg env message guild_id :
  exempt message = false -> guild message = Some guild_id ->
  first_match cfg message = None ->
  on_message cfg env message = _handle_spam_detection cfg env message guild_id.
Proof.
  intros Hex Hg Hfind. apply exempt_false in Hex as (Hbot & _ & Hmod).
  unfold on_message, first_match in *. rewrite Hbot, Hg, Hmod.
  destruct (word_filter cfg) as [|w words] eqn:Hwf; [done|].
  by apply loop_no_match.
Qed.

Lemma on_message_filter cfg env message w :
  exempt message = false -> first_match cfg message = Some w ->
  on_message cfg env message = _handle_word_filter env message w.
Proof.
  intros Hex Hfind. apply exempt_false in Hex as (Hbot & [g Hg] & Hmod).
  unfold on_message, first_match in *. rewrite Hbot, Hg, Hmod.
  destruct (word_filter cfg) as [|w' words] eqn:Hwf; [done|].
  by apply loop_match.
Qed.

Lemma find_first {A} (f : A -> bool) (l : list A) (x : A) :
  List.find f l = Some x <->
  exists pre post, l = (pre ++ x :: post)%list /\ f x = true
                   /\ List.Forall (fun y => f y = false) pre.
Proof.
  induction l as [|y l IH]; simpl.
  - split; [done|]. intros (pre & post & Hl & _). by destruct pre.
  - destruct (f y) eqn:Hy.
    + split.
      * intros [= ->]. exists [], l. auto.
      * intros (pre & post & Hl & Hx & Hpre). destruct pre as [|z pre].
        -- simpl in Hl. congruence.
        -- simpl in Hl. inversion Hpre; subst. congruence.
    + rewrite IH. split.
      * intros (pre & post & -> & Hx & Hpre). exists (y :: pre), post. auto.
      * intros (pre & post & Hl & Hx & Hpre). destruct pre as [|z pre].
        -- simpl in Hl. congruence.
        -- simpl in Hl. inversion Hpre; subst. injection Hl as -> ->. eauto.
Qed.

Lemma find_some_of_member {A} (f : A -> bool) (l : list A) (x : A) :
  In x l -> f x = true -> exists y, List.find f l = Some y.
Proof.
  induction l as [|z l IH]; simpl; [done|].
  intros [->|Hin] Hx.
  - rewrite Hx. eauto.
  - destruct (f z); eauto.
Qed.

(** The helper of the word filter, by the answers of the environment. *)
Lemma word_filter_table env message w st :
  let delete := Call (MessageDelete (message_id message)) (delete_result env) in
  let notice := Call (ChannelSend (channel message) MessageRemoved (id (author message)))
                     (send_result env) in
  let warning := LogWarning (CannotDeleteMessage (message_id message) (channel message)) in
  let r := result_of (_handle_word_filter env message w st) in
  action r = WordFilterAction w
  /\ tracker r = spam_tracker st
  /\ match delete_result env, send_result env with
     | Some Forbidden, _ =>
         effects r = (trace st ++ [delete; warning])%list /\ raised r = None
     | Some HTTPException, _ =>
         effects r = (trace st ++ [delete])%list /\ raised r = Some HTTPException
     | None, Some e =>
         effects r = (trace st ++ [delete; notice])%list /\ raised r = Some e
     | None, None =>
         effects r = (trace st ++ [delete; notice; DeleteAfter 5])%list /\ raised r = None
     end.
Proof.
  unfold _handle_word_filter, result_of, bind, try_except_Forbidden, call, emit,
    set_action, ret.
  destruct (delete_result env) as [[]|], (send_result env) as [e|]; simpl;
    rewrite <- ?app_assoc; simpl; auto.
Qed.

(** C4. A message from a bot account, a direct message, or a message
    whose author holds [manage_messages], [kick_members] or [ban_members]
    is left alone: the listener returns at once, no action is taken, no
    effect happens, nothing is raised, and the spam tracker is the one the
    listener found (the message is not recorded), whatever the content,
    the configured words and the stored history are. *)
Theorem exempt_message_ignored (cfg : Config) (tr : Tracker) (message : Message) (env : Env) :
  bot (author message) = true
  \/ guild message = None
  \/ manage_messages (guild_permissions (author message)) = true
  \/ kick_members (guild_permissions (author message)) = true
  \/ ban_members (guild_permissions (author message)) = true ->
  handle cfg tr (message, env) = mkResult NoAction [] None tr.
Proof.
  intros H. unfold handle. simpl fst; simpl snd.
  rewrite on_message_exempt; [done|].
  unfold exempt, has_moderation_permission.
  destruct H as [-> | [-> | [-> | [-> | ->]]]]; rewrite ?orb_true_r; done.
Qed.

Lemma exempt_message_ignored_witness :
  handle Scenario.config
         (tracker (handle Scenario.config ∅ (Scenario.says 1 "hi", Scenario.calm 0)))
         (mkMessage 2 Scenario.moderator (Some 1) 50 "badword1", Scenario.calm 1)
  = mkResult NoAction [] None
      (tracker (handle Scenario.config ∅ (Scenario.says 1 "hi", Scenario.calm 0))).
Proof.
  apply exempt_message_ignored. right; right; left. reflexivity.
Defined.

(** C5. A message that is not exempt and matches a configured word is
    answered by the word filter alone: the action is [WordFilterAction]
    with the first word of the configured list that matches, every effect
    is one of the word filter's, and the spam tracker is unchanged (no
    prune, no record, no count), whatever the stored history is. *)
Theorem word_filter_precedence (cfg : Config) (tr : Tracker) (message : Message) (env : Env) :
  exempt message = false ->
  (exists w, In w (word_filter cfg)
             /\ word_matches (lower (content message)) w = true) ->
  let r := handle cfg tr (message, env) in
  exists w pre post,
    word_filter cfg = (pre ++ w :: post)%list
    /\ word_matches (lower (content message)) w = true
    /\ List.Forall (fun w' => word_matches (lower (content message)) w' = false) pre
    /\ action r = WordFilterAction w
    /\ tracker r = tr
    /\ List.Forall (fun e => word_filter_effect e = true) (effects r).
Proof.
  intros Hex (w0 & Hin & Hmatch) r.
  destruct (find_some_of_member _ _ _ Hin Hmatch) as [w Hfind].
  pose proof Hfind as (pre & post & Hl & Hw & Hpre)%find_first.
  exists w, pre, post. split_and!; try done.
  all: subst r; unfold handle; simpl fst; simpl snd;
    rewrite (on_message_filter cfg env message w Hex Hfind);
    pose proof (word_filter_table env message w (mkState tr [] NoAction)) as (Ha & Ht & He).
  - exact Ha.
  - exact Ht.
  - destruct (delete_result env) as [[]|], (send_result env) as [e|];
      destruct He as [-> _]; repeat constructor.
Qed.

Lemma word_filter_precedence_witness :
  exists w pre post,
    word_filter Scenario.config = (pre ++ w :: post)%list
    /\ word_matches (lower "a BadWord2 and badword1") w = true
    /\ List.Forall (fun w' => word_matches (lower "a BadWord2 and badword1") w' = false) pre
    /\ action (handle Scenario.config ∅
                 (Scenario.says 1 "a BadWord2 and badword1", Scenario.calm 0))
       = WordFilterAction w
    /\ tracker (handle Scenario.config ∅
                  (Scenario.says 1 "a BadWord2 and badword1", Scenario.calm 0)) = ∅
    /\ List.Forall (fun e => word_filter_effect e = true)
         (effects (handle Scenario.config ∅
                     (Scenario.says 1 "a BadWord2 and badword1", Scenario.calm 0))).
Proof.
  apply (word_filter_precedence Scenario.config ∅
           (Scenario.says 1 "a BadWord2 and badword1") (Scenario.calm 0)).
  - reflexivity.
  - exists "badword2". split; [simpl; auto | reflexivity].
Defined.

(** C7, as the code has it.  When a [WordFilterAction] is handled, the
    delete of the message is attempted first.  A [Forbidden] failure of the
    delete is caught and logged and the helper returns there: no notice is
    posted.  Any other failure of the delete is not caught: it is raised to
    the caller, nothing is logged and no notice is posted.  When the delete
    succeeds, a notice addressed to the author is posted; when that post
    succeeds the notice is scheduled for removal after 5 seconds, and when
    it fails the failure is raised to the caller.  The spam tracker is
    unchanged in every case. *)
Theorem word_filter_side_effects (env : Env) (message : Message) (w : string)
    (tr : Tracker) :
  let delete := Call (MessageDelete (message_id message)) (delete_result env) in
  let notice := Call (ChannelSend (channel message) MessageRemoved (id (author message)))
                     (send_result env) in
  let warning := LogWarning (CannotDeleteMessage (message_id message) (channel message)) in
  let r := result_of (_handle_word_filter env message w (mkState tr [] NoAction)) in
  action r = WordFilterAction w
  /\ tracker r = tr
  /\ match delete_result env, send_result env with
     | Some Forbidden, _ => effects r = [delete; warning] /\ raised r = None
     | Some HTTPException, _ => effects r = [delete] /\ raised r = Some HTTPException
     | None, Some e => effects r = [delete; notice] /\ raised r = Some e
     | None, None => effects r = [delete; notice; DeleteAfter 5] /\ raised r = None
     end.
Proof. exact (word_filter_table env message w (mkState tr [] NoAction)). Qed.

(** C7, the claim as stated, fails: with the configured word ["badword1"]
    in the content and a delete that fails with an HTTP error other than
    [Forbidden], the failure is neither caught nor logged, and it reaches
    the caller. *)
Lemma word_filter_delete_http_error_raised :
  action (handle Scenario.config ∅ (Scenario.says 1 "badword1", Scenario.delete_fails))
  = WordFilterAction "badword1"
  /\ effects (handle Scenario.config ∅ (Scenario.says 1 "badword1", Scenario.delete_fails))
     = [Call (MessageDelete 1) (Some HTTPException)]
  /\ raised (handle Scenario.config ∅ (Scenario.says 1 "badword1", Scenario.delete_fails))
     = Some HTTPException
  /\ ~ (raised (handle Scenario.config ∅ (Scenario.says 1 "badword1", Scenario.delete_fails))
        = None
        /\ In (LogWarning (CannotDeleteMessage 1 50))
              (effects (handle Scenario.config ∅
                          (Scenario.says 1 "badword1", Scenario.delete_fails)))).
Proof.
  split_and!; try reflexivity.
  intros [Hraised _]. vm_compute in Hraised. discriminate.
Qed.

(** C10. With the empty string among the configured words, every message
    that is not exempt matches the word filter: the action is a
    [WordFilterAction], the delete of the message is the first effect, and
    the spam check is not reached, so the tracker is unchanged.  The same
    holds for any configured word whose lowercased form occurs in the
    lowercased content. *)
Theorem empty_filter_word_blocks_spam_check (cfg : Config) (tr : Tracker)
    (message : Message) (env : Env) :
  exempt message = false ->
  let r := handle cfg tr (message, env) in
  let blocked :=
    (exists w, action r = WordFilterAction w)
    /\ List.head (effects r) = Some (Call (MessageDelete (message_id message)) (delete_result env))
    /\ tracker r = tr in
  (In "" (word_filter cfg) -> blocked)
  /\ (forall w pre post,
        In w (word_filter cfg) ->
        lower (content message) = pre ++ lower w ++ post ->
        blocked).
Proof.
  intros Hex r blocked.
  assert (forall w, In w (word_filter cfg) ->
            word_matches (lower (content message)) w = true -> blocked) as Hgen.
  { intros w Hin Hmatch.
    destruct (find_some_of_member _ _ _ Hin Hmatch) as [w' Hfind].
    subst blocked r. unfold handle. simpl fst; simpl snd.
    rewrite (on_message_filter cfg env message w' Hex Hfind).
    pose proof (word_filter_table env message w' (mkState tr [] NoAction)) as (Ha & Ht & He).
    split_and!; [by exists w' | | exact Ht].
    destruct (delete_result env) as [[]|], (send_result env) as [e|];
      destruct He as [-> _]; reflexivity. }
  split.
  - intros Hin. apply (Hgen "" Hin). apply str_in_empty.
  - intros w pre post Hin Hsub. apply (Hgen w Hin).
    apply str_in_substring. eauto.
Qed.

Lemma empty_filter_word_blocks_spam_check_witness :
  (exists w, action (handle Scenario.empty_word_config ∅
                       (Scenario.says 1 "hi", Scenario.calm 0)) = WordFilterAction w)
  /\ List.head (effects (handle Scenario.empty_word_config ∅
                           (Scenario.says 1 "hi", Scenario.calm 0)))
     = Some (Call (MessageDelete 1) None)
  /\ tracker (handle Scenario.empty_word_config ∅
                (Scenario.says 1 "hi", Scenario.calm 0)) = ∅.
Proof.
  apply (proj1 (empty_filter_word_blocks_spam_check Scenario.empty_word_config ∅
                  (Scenario.says 1 "hi") (Scenario.calm 0) eq_refl)).
  simpl. auto.
Defined.

(** ** The spam check *)

Lemma record_at_insert (key : Z * Z) (r : MessageRecord) (tr : Tracker) :
  record_at key (<[key := r]> tr) = r.
Proof. unfold record_at. by rewrite lookup_insert_eq. Qed.

Lemma spam_detection_quiet cfg env message guild_id st :
  identical_count (content message)
    (checked_record cfg env message guild_id (spam_tracker st)) < spam_threshold cfg ->
  _handle_spam_detection cfg env message guild_id st =
  (Returned tt,
   mkState (<[(guild_id, id (author message)) :=
                checked_record cfg env message guild_id (spam_tracker st)]> (spam_tracker st))
           (trace st) (dispatched st)).
Proof.
  intros Hlt. apply Z.leb_gt in Hlt.
  unfold _handle_spam_detection, bind, getitem, mutate, peek, update_tracker, ret.
  simpl. rewrite !alter_insert_eq, record_at_insert.
  unfold checked_record in *. by rewrite Hlt.
Qed.

(** The triggered spam check, by the answers of the environment. *)
Lemma spam_detection_table cfg env message guild_id st :
  let key := (guild_id, id (author message)) in
  let checked := checked_record cfg env message guild_id (spam_tracker st) in
  let purge := Call (ChannelPurge (channel message) (spam_threshold cfg + 5)
                                  (id (author message))) (purge_result env) in
  let mute := Call (MemberTimeout (id (author message)) 5) (timeout_result env) in
  let warning := LogWarning (CannotTimeoutMember (id (author message)) guild_id) in
  let notice := Call (ChannelSend (channel message) SpamDetected (id (author message)))
                     (send_result env) in
  let kept := <[key := checked]> (spam_tracker st) in
  let reset := delete key (spam_tracker st) in
  spam_threshold cfg <= identical_count (content message) checked ->
  let r := result_of (_handle_spam_detection cfg env message guild_id st) in
  action r = SpamAction
  /\ match purge_result env, timeout_result env, send_result env with
     | Some HTTPException, _, _ =>
         effects r = (trace st ++ [purge])%list
         /\ raised r = Some HTTPException /\ tracker r = kept
     | _, Some HTTPException, _ =>
         effects r = (trace st ++ [purge; mute])%list
         /\ raised r = Some HTTPException /\ tracker r = kept
     | _, Some Forbidden, Some e =>
         effects r = (trace st ++ [purge; mute; warning; notice])%list
         /\ raised r = Some e /\ tracker r = kept
     | _, Some Forbidden, None =>
         effects r = (trace st ++ [purge; mute; warning; notice; DeleteAfter 5])%list
         /\ raised r = None /\ tracker r = reset
     | _, None, Some e =>
         effects r = (trace st ++ [purge; mute; notice])%list
         /\ raised r = Some e /\ tracker r = kept
     | _, None, None =>
         effects r = (trace st ++ [purge; mute; notice; DeleteAfter 5])%list
         /\ raised r = None /\ tracker r = reset
     end.
Proof.
  intros key checked purge mute warning notice kept reset Hge.
  apply Z.leb_le in Hge. subst checked. unfold checked_record in Hge.
  unfold _handle_spam_detection, bind, getitem, mutate, peek, update_tracker, ret.
  simpl. rewrite !alter_insert_eq, record_at_insert, Hge.
  unfold result_of, try_except_Forbidden, call, emit, set_action, delitem, update_tracker.
  subst purge mute warning notice kept reset key. unfold checked_record.
  destruct (purge_result env) as [[]|], (timeout_result env) as [[]|],
    (send_result env) as [e|]; simpl;
    rewrite <- ?app_assoc, ?delete_insert_eq; simpl; auto.
Qed.

(** C8, as the code has it.  When a [SpamAction] fires, the bulk delete is
    attempted first, with limit [threshold + 5] and restricted to the
    author of the message.  A [Forbidden] failure of the delete is swallowed
    without a log entry and the 5-minute mute is attempted; a [Forbidden]
    failure of the mute is logged and the notice is posted; once the notice
    is posted it is scheduled for removal after 5 seconds, the tracker entry
    of the author is reset and the helper returns.  Any other HTTP failure
    of the delete or of the mute, and any failure of the notice, is not
    caught: it is raised to the caller, the side effects that follow are not
    attempted, and the tracker entry is kept as the check left it. *)
Theorem spam_action_side_effects (cfg : Config) (env : Env) (message : Message)
    (guild_id : Z) (tr : Tracker) :
  let key := (guild_id, id (author message)) in
  let checked := checked_record cfg env message guild_id tr in
  let purge := Call (ChannelPurge (channel message) (spam_threshold cfg + 5)
                                  (id (author message))) (purge_result env) in
  let mute := Call (MemberTimeout (id (author message)) 5) (timeout_result env) in
  let warning := LogWarning (CannotTimeoutMember (id (author message)) guild_id) in
  let notice := Call (ChannelSend (channel message) SpamDetected (id (author message)))
                     (send_result env) in
  let kept := <[key := checked]> tr in
  let reset := delete key tr in
  spam_threshold cfg <= identical_count (content message) checked ->
  let r := result_of (_handle_spam_detection cfg env message guild_id
                        (mkState tr [] NoAction)) in
  action r = SpamAction
  /\ match purge_result env, timeout_result env, send_result env with
     | Some HTTPException, _, _ =>
         effects r = [purge] /\ raised r = Some HTTPException /\ tracker r = kept
     | _, Some HTTPException, _ =>
         effects r = [purge; mute] /\ raised r = Some HTTPException /\ tracker r = kept
     | _, Some Forbidden, Some e =>
         effects r = [purge; mute; warning; notice]
         /\ raised r = Some e /\ tracker r = kept
     | _, Some Forbidden, None =>
         effects r = [purge; mute; warning; notice; DeleteAfter 5]
         /\ raised r = None /\ tracker r = reset
     | _, None, Some e =>
         effects r = [purge; mute; notice] /\ raised r = Some e /\ tracker r = kept
     | _, None, None =>
         effects r = [purge; mute; notice; DeleteAfter 5]
         /\ raised r = None /\ tracker r = reset
     end.
Proof.
  exact (spam_detection_table cfg env message guild_id (mkState tr [] NoAction)).
Qed.

Lemma spam_action_side_effects_witness :
  action (result_of (_handle_spam_detection Scenario.config (Scenario.purge_forbidden 4)
                       (Scenario.says 3 "hi") 1 (mkState Scenario.two_his [] NoAction)))
  = SpamAction
  /\ effects (result_of (_handle_spam_detection Scenario.config (Scenario.purge_forbidden 4)
                       (Scenario.says 3 "hi") 1 (mkState Scenario.two_his [] NoAction)))
     = [Call (ChannelPurge 50 8 7) (Some Forbidden); Call (MemberTimeout 7 5) None;
        Call (ChannelSend 50 SpamDetected 7) None; DeleteAfter 5]
  /\ raised (result_of (_handle_spam_detection Scenario.config (Scenario.purge_forbidden 4)
                       (Scenario.says 3 "hi") 1 (mkState Scenario.two_his [] NoAction)))
     = None
  /\ tracker (result_of (_handle_spam_detection Scenario.config (Scenario.purge_forbidden 4)
                       (Scenario.says 3 "hi") 1 (mkState Scenario.two_his [] NoAction)))
     = delete (1, 7) Scenario.two_his.
Proof.
  apply (spam_action_side_effects Scenario.config (Scenario.purge_forbidden 4)
           (Scenario.says 3 "hi") 1 Scenario.two_his).
  vm_compute. discriminate.
Defined.

(** C8, the claim as stated, fails.  With [threshold = 3] and two ["hi"]
    stored, the third ["hi"] fires the spam action.  When the purge fails
    with an HTTP error other than [Forbidden], the failure reaches the
    caller, the mute is not attempted, and the tracker entry is not reset.
    When the purge fails with [Forbidden], nothing is logged for it. *)
Lemma spam_purge_failure_not_contained :
  (action (handle Scenario.config Scenario.two_his
             (Scenario.says 3 "hi", Scenario.purge_fails 4)) = SpamAction
   /\ effects (handle Scenario.config Scenario.two_his
                 (Scenario.says 3 "hi", Scenario.purge_fails 4))
      = [Call (ChannelPurge 50 8 7) (Some HTTPException)]
   /\ raised (handle Scenario.config Scenario.two_his
                (Scenario.says 3 "hi", Scenario.purge_fails 4))
      = Some HTTPException
   /\ tracker (handle Scenario.config Scenario.two_his
                 (Scenario.says 3 "hi", Scenario.purge_fails 4)) !! (1, 7)
      = Some (mkRecord [("hi", 0%Q); ("hi", 2%Q); ("hi", 4%Q)]))
  /\ effects (handle Scenario.config Scenario.two_his
                (Scenario.says 3 "hi", Scenario.purge_forbidden 4))
     = [Call (ChannelPurge 50 8 7) (Some Forbidden); Call (MemberTimeout 7 5) None;
        Call (ChannelSend 50 SpamDetected 7) None; DeleteAfter 5].
Proof. split_and!; reflexivity. Qed.

(** ** Counting inside the window *)



Lemma count_checked (cfg : Config) (env : Env) (message : Message) (guild_id : Z)
    (tr : Tracker) :
  identical_count (content message) (checked_record cfg env message guild_id tr)
  = identical_count (content message)
      (prune (monotonic env - inject_Z (spam_interval cfg))
             (record_at (guild_id, id (author message)) tr)) + 1.
Proof.
  unfold checked_record. rewrite identical_count_add. by rewrite decide_True.
Qed.

Lemma handle_quiet (cfg : Config) (tr : Tracker) (message : Message) (env : Env)
    (guild_id : Z) :
  exempt message = false -> guild message = Some guild_id ->
  first_match cfg message = None ->
  identical_count (content message) (checked_record cfg env message guild_id tr)
    < spam_threshold cfg ->
  handle cfg tr (message, env)
  = mkResult NoAction [] None
      (<[(guild_id, id (author message)) := checked_record cfg env message guild_id tr]> tr).
Proof.
  intros Hex Hg Hfind Hlt. unfold handle. simpl fst; simpl snd.
  rewrite (on_message_spam cfg env message guild_id Hex Hg Hfind).
  by rewrite spam_detection_quiet.
Qed.

Lemma handle_trigger (cfg : Config) (tr : Tracker) (message : Message) (env : Env)
    (guild_id : Z) :
  exempt message = false -> guild message = Some guild_id ->
  first_match cfg message = None ->
  spam_threshold cfg
    <= identical_count (content message) (checked_record cfg env message guild_id tr) ->
  let r := handle cfg tr (message, env) in
  action r = SpamAction
  /\ (raised r = None -> tracker r = delete (guild_id, id (author message)) tr)
  /\ (raised r <> None ->
      tracker r = <[(guild_id, id (author message)) :=
                      checked_record cfg env message guild_id tr]> tr).
Proof.
  intros Hex Hg Hfind Hge r. subst r. unfold handle. simpl fst; simpl snd.
  rewrite (on_message_spam cfg env message guild_id Hex Hg Hfind).
  pose proof (spam_detection_table cfg env message guild_id (mkState tr [] NoAction) Hge)
    as [Ha Ht].
  split; [exact Ha|]. simpl spam_tracker in Ht.
  destruct (purge_result env) as [[]|], (timeout_result env) as [[]|],
    (send_result env) as [e|]; destruct Ht as (_ & -> & ->); split; done.
Qed.



(** ** Case in the word filter and in the duplicate count *)

Lemma identical_count_occurrences content r :
  identical_count content r
  = Z.of_nat (List.count_occ string_dec (List.map fst (messages r)) content).
Proof.
  rewrite identical_count_length.
  induction (messages r) as [|[c t] l IH]; [done|].
  simpl List.filter. simpl List.map. unfold same_content at 1. simpl fst.
  destruct (String.eqb_spec c content) as [->|Hne].
  - rewrite List.count_occ_cons_eq by done. simpl List.length. lia.
  - rewrite List.count_occ_cons_neq by done. exact IH.
Qed.

(** C6. The word filter matches a configured word when its lowercased form
    occurs as a substring of the lowercased content, so the case of the
    word and of the content does not matter: ["spam"] matches
    ["This is SPAM"], and the listener answers that message with
    [WordFilterAction "spam"].  The duplicate count compares contents by
    exact string equality: it is the number of stored contents equal to the
    given one, ["Hello"] is not counted as ["hello"], and ["Hello"] followed
    by ["hello"] does not reach a threshold of 2. *)
Theorem filter_folds_case_count_does_not :
  (forall w c, word_matches (lower c) w = true
               <-> exists pre post, lower c = pre ++ lower w ++ post)
  /\ (forall w w' c c', lower w = lower w' -> lower c = lower c' ->
        word_matches (lower c) w = word_matches (lower c') w')
  /\ lower "This is SPAM" = "this is spam"
  /\ word_matches (lower "This is SPAM") "spam" = true
  /\ word_matches (lower "this is spam") "SPAM" = true
  /\ action (handle Scenario.spam_word_config ∅
               (Scenario.says 1 "This is SPAM", Scenario.calm 0))
     = WordFilterAction "spam"
  /\ (forall c r, identical_count c r
                  = Z.of_nat (List.count_occ string_dec (List.map fst (messages r)) c))
  /\ (forall c c' t r, identical_count c (add c' t r)
                       = identical_count c r + (if decide (c' = c) then 1 else 0))
  /\ identical_count "hello" (add "Hello" 0 new_record) = 0
  /\ List.map action (run Scenario.spam_word_config ∅
                        [(Scenario.says 1 "Hello", Scenario.calm 0);
                         (Scenario.says 2 "hello", Scenario.calm 1)])
     = [NoAction; NoAction]
  /\ List.map action (run Scenario.spam_word_config ∅
                        [(Scenario.says 1 "hello", Scenario.calm 0);
                         (Scenario.says 2 "hello", Scenario.calm 1)])
     = [NoAction; SpamAction].
Proof.
  split_and!; try reflexivity.
  - intros w c. apply str_in_substring.
  - intros w w' c c' Hw Hc. unfold word_matches. by rewrite Hw, Hc.
  - apply identical_count_occurrences.
  - intros c c' t r. apply identical_count_add.
Qed.

(** ** The invariant of the tracker *)

Lemma handle_filter_tracker (cfg : Config) (tr : Tracker) (message : Message) (env : Env)
    (w : string) :
  exempt message = false -> first_match cfg message = Some w ->
  action (handle cfg tr (message, env)) = WordFilterAction w
  /\ tracker (handle cfg tr (message, env)) = tr.
Proof.
  intros Hex Hfind. unfold handle. simpl fst; simpl snd.
  rewrite (on_message_filter cfg env message w Hex Hfind).
  pose proof (word_filter_table env message w (mkState tr [] NoAction)) as (Ha & Ht & _).
  done.
Qed.








(** ** Runs of identical messages *)

Lemma last_cons {A} (l : list A) (a d : A) : List.last (a :: l) d = List.last l a.
Proof.
  revert a d. induction l as [|b l IH]; intros a d; [done|].
  change (List.last (b :: l) d = List.last (b :: l) a). by rewrite !IH.
Qed.

Lemma final_tracker_cons (tr : Tracker) (r : Result) (rs : list Result) :
  final_tracker tr (r :: rs) = final_tracker (tracker r) rs.
Proof. unfold final_tracker. simpl List.map. apply last_cons. Qed.

Lemma run_cons (cfg : Config) (tr : Tracker) (ev : Message * Env)
    (evs : list (Message * Env)) :
  run cfg tr (ev :: evs) = handle cfg tr ev :: run cfg (tracker (handle cfg tr ev)) evs.
Proof. reflexivity. Qed.





Section IdenticalMessages.
Variable cfg : Config.
Variable guild_id author_id : Z.
Variable text : string.
Hypothesis Hfilter : List.find (word_matches (lower text)) (word_filter cfg) = None.








End IdenticalMessages.





(** * The slash commands *)

(** ** The duration parser *)

Lemma lstrip_spaces (lead s : list N) :
  forallb isspace lead = true -> lstrip (lead ++ s) = lstrip s.
Proof.
  induction lead as [|c lead IH]; [done|]. simpl forallb.
  intros [Hc Hlead]%andb_true_iff. simpl. rewrite Hc. by apply IH.
Qed.

Lemma lstrip_head (c : N) (s : list N) :
  isspace c = false -> lstrip (c :: s) = c :: s.
Proof. intros Hc. simpl. by rewrite Hc. Qed.

Lemma lstrip_split (s : list N) :
  exists lead, s = (lead ++ lstrip s)%list /\ forallb isspace lead = true.
Proof.
  induction s as [|c s (lead & Hs & Hlead)]; [by exists []|].
  simpl lstrip. destruct (isspace c) eqn:Hc.
  - exists (c :: lead). simpl. by rewrite <- Hs, Hc, Hlead.
  - by exists [].
Qed.

Lemma rstrip_spaces (trail : list N) :
  forallb isspace trail = true -> rstrip trail = [].
Proof.
  induction trail as [|c trail IH]; [done|]. simpl forallb.
  intros [Hc Htrail]%andb_true_iff. simpl. by rewrite IH, Hc.
Qed.

Lemma rstrip_tail (body : list N) (u : N) (trail : list N) :
  isspace u = false -> forallb isspace trail = true ->
  rstrip (body ++ u :: trail) = (body ++ [u])%list.
Proof.
  intros Hu Htrail. induction body as [|c body IH].
  - simpl. by rewrite (rstrip_spaces trail Htrail), Hu.
  - simpl. rewrite IH. by destruct body.
Qed.

Lemma rstrip_split (s : list N) :
  exists trail, s = (rstrip s ++ trail)%list /\ forallb isspace trail = true.
Proof.
  induction s as [|c s (trail & Hs & Htrail)]; [by exists []|].
  simpl rstrip. destruct (rstrip s) as [|d r] eqn:Hr.
  - simpl in Hs. subst s. destruct (isspace c) eqn:Hc.
    + exists (c :: trail). split; [done|]. simpl. by rewrite Hc, Htrail.
    + by exists trail.
  - exists trail. split; [|done]. simpl. f_equal. exact Hs.
Qed.

(** What [rstrip] leaves does not end with whitespace. *)
Lemma rstrip_no_trailing_space (s body : list N) (c : N) :
  rstrip s = (body ++ [c])%list -> isspace c = false.
Proof.
  revert body. induction s as [|d s IH]; intros body; simpl rstrip.
  - by destruct body.
  - destruct (rstrip s) as [|e r] eqn:Hr.
    + destruct (isspace d) eqn:Hd.
      * by destruct body.
      * destruct body as [|b body]; simpl.
        -- by intros [= <-].
        -- intros [= _ Hbody]. by destruct body.
    + destruct body as [|b body]; simpl.
      * discriminate.
      * intros [= _ Hbody]. by apply (IH body).
Qed.

Lemma strip_shape (lead body trail : list N) (first last : N) :
  forallb isspace lead = true -> forallb isspace trail = true ->
  isspace first = false -> isspace last = false ->
  strip (lead ++ (first :: body) ++ last :: trail) = ((first :: body) ++ [last])%list.
Proof.
  intros Hlead Htrail Hfirst Hlast. unfold strip.
  rewrite (lstrip_spaces lead _ Hlead). simpl app.
  rewrite (lstrip_head _ _ Hfirst).
  by apply (rstrip_tail (first :: body)).
Qed.

Lemma rstrip_append_spaces (s trail : list N) :
  forallb isspace trail = true -> rstrip (s ++ trail) = rstrip s.
Proof.
  intros Htrail. induction s as [|c s IH].
  - by apply rstrip_spaces.
  - simpl. by rewrite IH.
Qed.

Lemma lstrip_append (s trail : list N) :
  lstrip s <> [] -> lstrip (s ++ trail) = (lstrip s ++ trail)%list.
Proof.
  induction s as [|c s IH]; [done|]. simpl.
  by destruct (isspace c).
Qed.

Lemma lstrip_all_spaces (s : list N) : lstrip s = [] -> forallb isspace s = true.
Proof.
  induction s as [|c s IH]; [done|]. simpl.
  destruct (isspace c); [exact IH|done].
Qed.

(** The letters of the class, one by one. *)
Lemma in_unit_class_cases (c : N) :
  in_unit_class c = true ->
  In c [115; 109; 104; 100; 83; 77; 72; 68; 383]%N.
Proof.
  unfold in_unit_class. intros (x & Hin & ->%N.eqb_eq)%List.existsb_exists. exact Hin.
Qed.

Lemma unit_letter_not_space (u : N) : in_unit_class u = true -> isspace u = false.
Proof.
  intros Hu%in_unit_class_cases. simpl in Hu.
  repeat (destruct Hu as [<-|Hu]; [reflexivity|]). done.
Qed.

(** Of the letters of the class, the long s alone lowers to no key of
    [_DURATION_UNITS]. *)
Lemma unit_of_letter (letter : N) :
  in_unit_class letter = true ->
  (letter = 383%N /\ _DURATION_UNITS (lower_codepoint letter) = None)
  \/ (letter <> 383%N /\ exists u, _DURATION_UNITS (lower_codepoint letter) = Some u).
Proof.
  intros Hu%in_unit_class_cases. simpl in Hu.
  repeat (destruct Hu as [<-|Hu]; [right; split; [done|by eexists]|]).
  destruct Hu as [<-|[]]. by left.
Qed.

Lemma space_not_decimal (py : Interpreter) (c : N) :
  digits_apart py -> isspace c = true -> isdecimal py c = false.
Proof.
  intros Hpy Hc. destruct (isdecimal py c) eqn:Hd; [|done].
  destruct (Hpy c Hd) as [Hs _]. congruence.
Qed.

Lemma unit_letter_not_decimal (py : Interpreter) (c : N) :
  digits_apart py -> in_unit_class c = true -> isdecimal py c = false.
Proof.
  intros Hpy Hc. destruct (isdecimal py c) eqn:Hd; [|done].
  destruct (Hpy c Hd) as [_ Hu]. congruence.
Qed.

Lemma unit_at_end_inv (s : list N) (u : N) :
  unit_at_end s = Some u ->
  in_unit_class u = true /\ (s = [u] \/ s = [u; 10%N]).
Proof.
  destruct s as [|a [|nl [|]]]; try done; simpl.
  - destruct (in_unit_class a) eqn:Ha; [|done]. intros [= <-]. eauto.
  - destruct (in_unit_class a) eqn:Ha; [|done]. simpl.
    destruct (N.eqb_spec nl 10) as [->|]; [|done]. intros [= <-]. eauto.
Qed.

Lemma gap_then_unit_inv (s : list N) (u : N) :
  gap_then_unit s = Some u ->
  in_unit_class u = true
  /\ exists gap, forallb isspace gap = true
       /\ (s = (gap ++ [u])%list \/ s = (gap ++ [u; 10%N])%list).
Proof.
  induction s as [|c s IH]; [done|]. cbn [gap_then_unit].
  destruct (isspace c) eqn:Hc.
  - destruct (gap_then_unit s) as [v|] eqn:Hs.
    + intros [= <-]. destruct (IH eq_refl) as (Hu & gap & Hgap & Hshape).
      split; [done|]. exists (c :: gap). simpl. rewrite Hc, Hgap.
      split; [done|]. destruct Hshape as [-> | ->]; eauto.
    + intros (Hu & Hshape)%unit_at_end_inv. split; [done|]. by exists [].
  - intros (Hu & Hshape)%unit_at_end_inv. split; [done|]. by exists [].
Qed.

Lemma gap_then_unit_shape (gap : list N) (u : N) :
  forallb isspace gap = true -> in_unit_class u = true ->
  gap_then_unit (gap ++ [u]) = Some u.
Proof.
  intros Hgap Hu. induction gap as [|c gap IH].
  - simpl. rewrite Hu. by destruct (isspace u).
  - simpl in Hgap. apply andb_true_iff in Hgap as [Hc Hgap].
    simpl. by rewrite Hc, (IH Hgap).
Qed.

Lemma re_match_inv (py : Interpreter) (s digits : list N) (letter : N) :
  _DURATION_RE_match py s = Some (digits, letter) ->
  digits <> [] /\ forallb (isdecimal py) digits = true /\ in_unit_class letter = true
  /\ exists gap, forallb isspace gap = true
       /\ (s = (digits ++ gap ++ [letter])%list
           \/ s = (digits ++ gap ++ [letter; 10%N])%list).
Proof.
  revert digits. induction s as [|c s IH]; intros digits; [done|].
  simpl _DURATION_RE_match. destruct (isdecimal py c) eqn:Hc; [|done].
  destruct (_DURATION_RE_match py s) as [[ds v]|] eqn:Hs.
  - intros [= <- <-]. destruct (IH ds eq_refl) as (_ & Hds & Hu & gap & Hgap & Hshape).
    split_and!; [done | simpl; by rewrite Hc, Hds | done |].
    exists gap. split; [done|]. destruct Hshape as [-> | ->]; eauto.
  - destruct (gap_then_unit s) as [v|] eqn:Hg; [|done]. intros [= <- <-].
    apply gap_then_unit_inv in Hg as (Hu & gap & Hgap & Hshape).
    split_and!; [done | simpl; by rewrite Hc | done |].
    exists gap. split; [done|]. destruct Hshape as [-> | ->]; eauto.
Qed.

Lemma re_no_match (py : Interpreter) (s : list N) :
  match s with [] => True | c :: _ => isdecimal py c = false end ->
  _DURATION_RE_match py s = None.
Proof. destruct s as [|c s]; [done|]. simpl. by intros ->. Qed.

Lemma re_match_shape (py : Interpreter) (digits gap : list N) (letter : N) :
  digits_apart py ->
  digits <> [] -> forallb (isdecimal py) digits = true ->
  forallb isspace gap = true -> in_unit_class letter = true ->
  _DURATION_RE_match py (digits ++ gap ++ [letter]) = Some (digits, letter).
Proof.
  intros Hpy Hne Hdigits Hgap Hletter.
  induction digits as [|c digits IH]; [done|].
  simpl in Hdigits. apply andb_true_iff in Hdigits as [Hc Hdigits].
  simpl. rewrite Hc. destruct digits as [|d digits].
  - simpl app. rewrite re_no_match.
    + by rewrite (gap_then_unit_shape gap letter Hgap Hletter).
    + destruct gap as [|g gap]; simpl.
      * by apply unit_letter_not_decimal.
      * simpl in Hgap. apply andb_true_iff in Hgap as [Hg _].
        by apply space_not_decimal.
  - by rewrite IH.
Qed.

(** The shape the parser accepts, and the groups of the match. *)
Lemma parser_match_shape (py : Interpreter) (lead digits gap trail : list N) (letter : N) :
  digits_apart py ->
  forallb isspace lead = true ->
  forallb isspace gap = true ->
  forallb isspace trail = true ->
  digits <> [] ->
  forallb (isdecimal py) digits = true ->
  in_unit_class letter = true ->
  _DURATION_RE_match py (strip (lead ++ digits ++ gap ++ letter :: trail))
  = Some (digits, letter).
Proof.
  intros Hpy Hlead Hgap Htrail Hne Hdigits Hletter.
  destruct digits as [|d digits]; [done|].
  assert (isspace d = false) as Hd.
  { simpl in Hdigits. apply andb_true_iff in Hdigits as [Hd _]. by apply (Hpy d). }
  replace ((d :: digits) ++ gap ++ letter :: trail)%list
    with ((d :: digits ++ gap) ++ letter :: trail)%list
    by (simpl; by rewrite <- app_assoc).
  rewrite (strip_shape lead (digits ++ gap) trail d letter Hlead Htrail Hd
             (unit_letter_not_space _ Hletter)).
  replace ((d :: digits ++ gap) ++ [letter])%list
    with ((d :: digits) ++ gap ++ [letter])%list
    by (simpl; by rewrite <- app_assoc).
  by apply re_match_shape.
Qed.

Lemma int_of_digits_nonneg (py : Interpreter) (digits : list N) :
  0 <= int_of_digits py digits.
Proof.
  unfold int_of_digits.
  assert (forall acc, 0 <= acc ->
            0 <= List.fold_left
                   (fun acc c => 10 * acc + Z.of_N (default 0%N (decimal py c)))
                   digits acc) as Hgen.
  { induction digits as [|c digits IH]; intros acc Hacc; [done|].
    simpl. apply IH. lia. }
  by apply Hgen.
Qed.

Lemma timedelta_nonneg (u : DurationUnit) (value : Z) :
  0 <= value ->
  timedelta u value
  = if 999999999 <? value * seconds_per u / 86400 then Raises OverflowError
    else Value (value * seconds_per u).
Proof.
  intros Hvalue. unfold timedelta. cbv zeta. rewrite Z.abs_eq; [done|].
  apply Z.div_pos; [|done]. destruct u; simpl; lia.
Qed.

(** The decimal digits of the interpreter of the examples are apart. *)
Lemma staff_python_digits_apart : digits_apart Staff.python.
Proof.
  intros c. unfold isdecimal, Staff.python, decimal.
  destruct ((48 <=? c) && (c <=? 57))%N eqn:Hascii.
  - intros _. apply andb_true_iff in Hascii as [Hlo%N.leb_le Hhi%N.leb_le].
    split.
    + unfold isspace. repeat (apply orb_false_iff; split);
        first [apply andb_false_iff; first [left; apply N.leb_gt; lia
                                           | right; apply N.leb_gt; lia]
              | apply N.eqb_neq; lia].
    + unfold in_unit_class. simpl.
      repeat (apply orb_false_iff; split); first [apply N.eqb_neq; lia | done].
  - destruct ((1632 <=? c) && (c <=? 1641))%N eqn:Harabic; [|done].
    intros _. apply andb_true_iff in Harabic as [Hlo%N.leb_le Hhi%N.leb_le].
    split.
    + unfold isspace. repeat (apply orb_false_iff; split);
        first [apply andb_false_iff; first [left; apply N.leb_gt; lia
                                           | right; apply N.leb_gt; lia]
              | apply N.eqb_neq; lia].
    + unfold in_unit_class. simpl.
      repeat (apply orb_false_iff; split); first [apply N.eqb_neq; lia | done].
Qed.

(** The parser on strings that are not plain ASCII: an Arabic-Indic three
    before [s] is three seconds; a no-break space may stand between the
    number and the unit; the long s is matched as a unit and then is no key
    of [_DURATION_UNITS]; a number of more digits than the interpreter
    converts is a [ValueError]. *)
Example parse_duration_beyond_ascii :
  _parse_duration Staff.python [1635; 115]%N = Value (Some 3)
  /\ _parse_duration Staff.python [53; 160; 109]%N = Value (Some 300)
  /\ _parse_duration Staff.python [53; 383]%N = Raises KeyError
  /\ _parse_duration Staff.python (List.repeat 49%N 4301 ++ [115%N]) = Raises ValueError.
Proof. split_and!; by vm_compute. Qed.

(** X1. [_parse_duration] accepts a number written in decimal digits,
    followed by optional whitespace and one of the letters [s], [m], [h],
    [d], in either case, or the long s, with whitespace allowed around the
    whole.  With more digits than the interpreter converts, [int] raises
    [ValueError]; else, with the long s, the lookup of the unit raises
    [KeyError]; else the result is that many seconds, minutes, hours or
    days, or the [OverflowError] of [timedelta] when they exceed 999999999
    days. *)
Theorem parse_duration_accepts (py : Interpreter) (lead digits gap trail : list N)
    (letter : N) :
  digits_apart py ->
  forallb isspace lead = true ->
  forallb isspace gap = true ->
  forallb isspace trail = true ->
  digits <> [] ->
  forallb (isdecimal py) digits = true ->
  in_unit_class letter = true ->
  _parse_duration py (lead ++ digits ++ gap ++ letter :: trail)
  = if exceeds_int_max_str_digits py digits then Raises ValueError
    else
      match _DURATION_UNITS (lower_codepoint letter) with
      | None => Raises KeyError
      | Some u =>
          if 999999999 <? int_of_digits py digits * seconds_per u / 86400
          then Raises OverflowError
          else Value (Some (int_of_digits py digits * seconds_per u))
      end.
Proof.
  intros Hpy Hlead Hgap Htrail Hne Hdigits Hletter.
  unfold _parse_duration.
  rewrite (parser_match_shape py lead digits gap trail letter) by done.
  unfold int. destruct (exceeds_int_max_str_digits py digits); [done|].
  cbv zeta. destruct (_DURATION_UNITS (lower_codepoint letter)) as [u|]; [|done].
  rewrite (timedelta_nonneg u _ (int_of_digits_nonneg py digits)).
  by destruct (_ <? _).
Qed.

Lemma parse_duration_accepts_witness :
  _parse_duration Staff.python
    (codepoints " " ++ [57; 1632]%N ++ [160%N] ++ 77%N :: codepoints " ")
  = Value (Some 5400).
Proof.
  apply (parse_duration_accepts Staff.python (codepoints " ") [57; 1632]%N [160%N]
           (codepoints " ") 77%N staff_python_digits_apart);
    first [reflexivity | discriminate].
Defined.

(** X2. [_parse_duration] accepts nothing else: whenever it does not
    return [None], the string is whitespace, decimal digits, whitespace, a
    letter of the class and whitespace, in that order, with at least one
    digit. *)
Theorem parse_duration_only (py : Interpreter) (raw : list N) :
  _parse_duration py raw <> Value None ->
  exists (lead digits gap trail : list N) (letter : N),
    raw = (lead ++ digits ++ gap ++ letter :: trail)%list
    /\ forallb isspace lead = true
    /\ forallb isspace gap = true
    /\ forallb isspace trail = true
    /\ digits <> []
    /\ forallb (isdecimal py) digits = true
    /\ in_unit_class letter = true.
Proof.
  unfold _parse_duration. intros Hparse.
  destruct (_DURATION_RE_match py (strip raw)) as [[digits letter]|] eqn:Hmatch; [|done].
  apply re_match_inv in Hmatch as (Hne & Hdigits & Hletter & gap & Hgap & Hshape).
  destruct (lstrip_split raw) as (lead & Hraw & Hlead).
  destruct (rstrip_split (lstrip raw)) as (trail & Hstrip & Htrail).
  fold (strip raw) in Hstrip.
  destruct Hshape as [Hshape|Hshape].
  - exists lead, digits, gap, trail, letter. split_and!; try done.
    rewrite Hraw, Hstrip, Hshape at 1. by rewrite <- !app_assoc.
  - exfalso. unfold strip in Hshape.
    assert (isspace 10 = false); [|done].
    apply (rstrip_no_trailing_space (lstrip raw) (digits ++ gap ++ [letter])).
    by rewrite Hshape, <- !app_assoc.
Qed.

Lemma parse_duration_only_witness :
  exists (lead digits gap trail : list N) (letter : N),
    [32; 1637; 160; 383; 8195]%N = (lead ++ digits ++ gap ++ letter :: trail)%list
    /\ forallb isspace lead = true
    /\ forallb isspace gap = true
    /\ forallb isspace trail = true
    /\ digits <> []
    /\ forallb (isdecimal Staff.python) digits = true
    /\ in_unit_class letter = true.
Proof.
  apply (parse_duration_only Staff.python [32; 1637; 160; 383; 8195]%N).
  vm_compute. discriminate.
Defined.

(** X3. Whitespace around the argument does not change what
    [_parse_duration] returns. *)
Theorem parse_duration_ignores_padding (py : Interpreter) (lead raw trail : list N) :
  forallb isspace lead = true ->
  forallb isspace trail = true ->
  _parse_duration py (lead ++ raw ++ trail) = _parse_duration py raw.
Proof.
  intros Hlead Htrail. unfold _parse_duration.
  replace (strip (lead ++ raw ++ trail)) with (strip raw); [done|].
  unfold strip. rewrite (lstrip_spaces lead _ Hlead).
  destruct (lstrip raw) as [|c rest] eqn:Hraw.
  - apply lstrip_all_spaces in Hraw.
    assert (forallb isspace (raw ++ trail) = true) as Hall.
    { by rewrite forallb_app, Hraw, Htrail. }
    destruct (lstrip_split (raw ++ trail)) as (lead' & Hsplit & _).
    assert (forallb isspace (lstrip (raw ++ trail)) = true) as Hrest.
    { rewrite Hsplit, forallb_app in Hall. by apply andb_true_iff in Hall as [_ ?]. }
    by rewrite (rstrip_spaces _ Hrest).
  - rewrite lstrip_append by (by rewrite Hraw).
    by rewrite Hraw, rstrip_append_spaces.
Qed.

Lemma parse_duration_ignores_padding_witness :
  _parse_duration Staff.python (codepoints "  " ++ codepoints "5m" ++ codepoints "  ")
  = _parse_duration Staff.python (codepoints "5m").
Proof. apply parse_duration_ignores_padding; reflexivity. Defined.

(** X4. What [_parse_duration] returns is a number of seconds that is not
    negative and amounts to at most 999999999 days. *)
Theorem parse_duration_range (py : Interpreter) (raw : list N) (delta : Z) :
  _parse_duration py raw = Value (Some delta) ->
  0 <= delta /\ delta / 86400 <= 999999999.
Proof.
  unfold _parse_duration.
  destruct (_DURATION_RE_match py (strip raw)) as [[digits letter]|]; [|done].
  unfold int. destruct (exceeds_int_max_str_digits py digits); [done|].
  cbv zeta. destruct (_DURATION_UNITS (lower_codepoint letter)) as [u|]; [|done].
  pose proof (int_of_digits_nonneg py digits) as Hnn.
  rewrite (timedelta_nonneg u _ Hnn).
  destruct (999999999 <? int_of_digits py digits * seconds_per u / 86400) eqn:Hover; [done|].
  intros [= <-]. apply Z.ltb_ge in Hover.
  split; [destruct u; simpl; lia | done].
Qed.

Lemma parse_duration_range_witness :
  0 <= 7200 /\ 7200 / 86400 <= 999999999.
Proof. apply (parse_duration_range Staff.python (codepoints "2H")). reflexivity. Defined.

(** ** The slash commands *)

Lemma send_mod_log_spec (entry : option string) (o : Oracle) (guild : Guild)
    (embed : Embed) (w : World) :
  _send_mod_log entry o guild embed w
  = match get_text_channel guild (default "mod-log" entry) with
    | None =>
        (Done tt, mkWorld (warnings_table w)
                          (happened w ++ [Logged (default "mod-log" entry)]))
    | Some ch =>
        let r := TextChannelSend (channel_id ch) embed in
        (match answer o r with None => Done tt | Some e => Failed (ApiError e) end,
         mkWorld (warnings_table w) (happened w ++ [Requested r (answer o r)]))
    end.
Proof.
  unfold _send_mod_log. destruct (get_text_channel guild _); [|done].
  unfold request. by destruct (answer o _).
Qed.

Lemma request_spec (o : Oracle) (r : Request) (w : World) :
  request o r w
  = (match answer o r with None => Done tt | Some e => Failed (ApiError e) end,
     mkWorld (warnings_table w) (happened w ++ [Requested r (answer o r)])).
Proof. unfold request. by destruct (answer o r). Qed.

(** [/kick] by the answers of the environment: the refusal, the
    best-effort DM, the removal, the mod-log entry and the reply. *)
Lemma kick_table (entry : option string) (o : Oracle) (guild : Guild)
    (moderator member : Z) (reason : string) (rows : list Warning) :
  let refusal := ResponseSend (error_embed "Cannot Kick" []) true in
  let dm := MemberSend member (warning_embed "You have been kicked"
                                             [Lit (guild_name guild); Lit reason]) in
  let removal := MemberKick member reason in
  let reply := ResponseSend (success_embed "Member Kicked" [Str member; Lit reason]) false in
  let entry_embed := mod_log_embed "Member Kicked" moderator member reason in
  let ended (r : option Exc) := match r with None => Done tt | Some e => Failed (ApiError e) end in
  kick entry o guild moderator member reason (at_start rows)
  = if negb (bot_outranks guild member) then
      (ended (answer o refusal), mkWorld rows [Requested refusal (answer o refusal)])
    else
      match answer o removal with
      | Some e =>
          (Failed (ApiError e),
           mkWorld rows [Requested dm (answer o dm); Requested removal (Some e)])
      | None =>
          match get_text_channel guild (default "mod-log" entry) with
          | None =>
              (ended (answer o reply),
               mkWorld rows [Requested dm (answer o dm); Requested removal None;
                             Logged (default "mod-log" entry);
                             Requested reply (answer o reply)])
          | Some ch =>
              let log := TextChannelSend (channel_id ch) entry_embed in
              match answer o log with
              | Some e =>
                  (Failed (ApiError e),
                   mkWorld rows [Requested dm (answer o dm); Requested removal None;
                                 Requested log (Some e)])
              | None =>
                  (ended (answer o reply),
                   mkWorld rows [Requested dm (answer o dm); Requested removal None;
                                 Requested log None; Requested reply (answer o reply)])
              end
          end
      end.
Proof.
  intros refusal dm removal reply entry_embed ended.
  subst refusal dm removal reply entry_embed ended.
  unfold kick, _can_action_member, at_start, cmd_bind, best_effort.
  destruct (bot_outranks guild member); cbv beta iota delta [negb].
  2:{ by rewrite request_spec. }
  rewrite request_spec. cbv beta iota delta [warnings_table happened].
  destruct (answer o (MemberSend _ _)).
  all: rewrite request_spec; cbv beta iota delta [warnings_table happened];
    destruct (answer o (MemberKick _ _)); [done|].
  all: rewrite send_mod_log_spec; cbv beta iota zeta delta [warnings_table happened];
    destruct (get_text_channel guild (default "mod-log" entry)) as [ch|].
  all: try (destruct (answer o (TextChannelSend _ _)); [done|]).
  all: by rewrite request_spec.
Qed.

(** [/ban] by the answers of the environment. *)
Lemma ban_table (entry : option string) (o : Oracle) (guild : Guild)
    (moderator member : Z) (reason : string) (rows : list Warning) :
  let refusal := ResponseSend (error_embed "Cannot Ban" []) true in
  let dm := MemberSend member (warning_embed "You have been banned"
                                             [Lit (guild_name guild); Lit reason]) in
  let removal := MemberBan member reason in
  let reply := ResponseSend (success_embed "Member Banned" [Str member; Lit reason]) false in
  let entry_embed := mod_log_embed "Member Banned" moderator member reason in
  let ended (r : option Exc) := match r with None => Done tt | Some e => Failed (ApiError e) end in
  ban entry o guild moderator member reason (at_start rows)
  = if negb (bot_outranks guild member) then
      (ended (answer o refusal), mkWorld rows [Requested refusal (answer o refusal)])
    else
      match answer o removal with
      | Some e =>
          (Failed (ApiError e),
           mkWorld rows [Requested dm (answer o dm); Requested removal (Some e)])
      | None =>
          match get_text_channel guild (default "mod-log" entry) with
          | None =>
              (ended (answer o reply),
               mkWorld rows [Requested dm (answer o dm); Requested removal None;
                             Logged (default "mod-log" entry);
                             Requested reply (answer o reply)])
          | Some ch =>
              let log := TextChannelSend (channel_id ch) entry_embed in
              match answer o log with
              | Some e =>
                  (Failed (ApiError e),
                   mkWorld rows [Requested dm (answer o dm); Requested removal None;
                                 Requested log (Some e)])
              | None =>
                  (ended (answer o reply),
                   mkWorld rows [Requested dm (answer o dm); Requested removal None;
                                 Requested log None; Requested reply (answer o reply)])
              end
          end
      end.
Proof.
  intros refusal dm removal reply entry_embed ended.
  subst refusal dm removal reply entry_embed ended.
  unfold ban, _can_action_member, at_start, cmd_bind, best_effort.
  destruct (bot_outranks guild member); cbv beta iota delta [negb].
  2:{ by rewrite request_spec. }
  rewrite request_spec. cbv beta iota delta [warnings_table happened].
  destruct (answer o (MemberSend _ _)).
  all: rewrite request_spec; cbv beta iota delta [warnings_table happened];
    destruct (answer o (MemberBan _ _)); [done|].
  all: rewrite send_mod_log_spec; cbv beta iota zeta delta [warnings_table happened];
    destruct (get_text_channel guild (default "mod-log" entry)) as [ch|].
  all: try (destruct (answer o (TextChannelSend _ _)); [done|]).
  all: by rewrite request_spec.
Qed.

(** X5. When the bot's top role is not above the target's, [/kick] and
    [/ban] do one thing only: an ephemeral refusal is sent.  The member
    gets no DM and is not removed, nothing is written to the mod-log, and
    the stored warnings are unchanged. *)
Theorem removal_refused (entry : option string) (o : Oracle) (guild : Guild)
    (moderator member : Z) (reason : string) (rows : list Warning) :
  bot_outranks guild member = false ->
  snd (kick entry o guild moderator member reason (at_start rows))
  = mkWorld rows [Requested (ResponseSend (error_embed "Cannot Kick" []) true)
                            (answer o (ResponseSend (error_embed "Cannot Kick" []) true))]
  /\ snd (ban entry o guild moderator member reason (at_start rows))
     = mkWorld rows [Requested (ResponseSend (error_embed "Cannot Ban" []) true)
                               (answer o (ResponseSend (error_embed "Cannot Ban" []) true))].
Proof.
  intros Hrank. rewrite kick_table, ban_table, Hrank. by split.
Qed.

(** X6. When the bot outranks the target, [/kick] and [/ban] first try to
    DM the member and then remove the member, whatever the DM call
    answered: a failed DM, of either kind, does not stop the removal. *)
Theorem removal_follows_dm (entry : option string) (o : Oracle) (guild : Guild)
    (moderator member : Z) (reason : string) (rows : list Warning) :
  bot_outranks guild member = true ->
  (exists dm_embed rest,
     happened (snd (kick entry o guild moderator member reason (at_start rows)))
     = Requested (MemberSend member dm_embed) (answer o (MemberSend member dm_embed))
       :: Requested (MemberKick member reason) (answer o (MemberKick member reason))
       :: rest)
  /\ (exists dm_embed rest,
        happened (snd (ban entry o guild moderator member reason (at_start rows)))
        = Requested (MemberSend member dm_embed) (answer o (MemberSend member dm_embed))
          :: Requested (MemberBan member reason) (answer o (MemberBan member reason))
          :: rest).
Proof.
  intros Hrank. rewrite kick_table, ban_table, Hrank. cbv beta iota zeta delta [negb].
  split; eexists; [destruct (answer o (MemberKick _ _)) eqn:Hrm
                  | destruct (answer o (MemberBan _ _)) eqn:Hrm].
  all: try (eexists; simpl; reflexivity).
  all: destruct (get_text_channel guild (default "mod-log" entry)) as [ch|];
    [destruct (answer o (TextChannelSend _ _))|]; eexists; simpl; reflexivity.
Qed.

Lemma removal_refused_witness :
  snd (kick None Staff.calm Staff.guild 10 99 "spam" (at_start Staff.rows))
  = mkWorld Staff.rows [Requested (ResponseSend (error_embed "Cannot Kick" []) true) None]
  /\ snd (ban None Staff.calm Staff.guild 10 99 "spam" (at_start Staff.rows))
     = mkWorld Staff.rows [Requested (ResponseSend (error_embed "Cannot Ban" []) true) None].
Proof. apply (removal_refused None Staff.calm Staff.guild 10 99 "spam" Staff.rows). reflexivity. Defined.

Lemma removal_follows_dm_witness :
  (exists dm_embed rest,
     happened (snd (kick None Staff.closed_dms Staff.guild 10 20 "spam" (at_start [])))
     = Requested (MemberSend 20 dm_embed) (answer Staff.closed_dms (MemberSend 20 dm_embed))
       :: Requested (MemberKick 20 "spam") (answer Staff.closed_dms (MemberKick 20 "spam"))
       :: rest)
  /\ (exists dm_embed rest,
        happened (snd (ban None Staff.closed_dms Staff.guild 10 20 "spam" (at_start [])))
        = Requested (MemberSend 20 dm_embed) (answer Staff.closed_dms (MemberSend 20 dm_embed))
          :: Requested (MemberBan 20 "spam") (answer Staff.closed_dms (MemberBan 20 "spam"))
          :: rest).
Proof. apply (removal_follows_dm None Staff.closed_dms Staff.guild 10 20 "spam" []). reflexivity. Defined.

(** X7. [/kick] and [/ban] report success only for a member they removed:
    when the removal call fails, the exception ends the command right
    there, after the DM and before any mod-log entry or reply; and the
    reply titled as done is sent only after a removal call that succeeded. *)
Theorem removal_reported_only_when_done (entry : option string) (o : Oracle)
    (guild : Guild) (moderator member : Z) (reason : string) (rows : list Warning) :
  bot_outranks guild member = true ->
  (forall e, answer o (MemberKick member reason) = Some e ->
     exists dm_embed,
       kick entry o guild moderator member reason (at_start rows)
       = (Failed (ApiError e),
          mkWorld rows [Requested (MemberSend member dm_embed)
                                  (answer o (MemberSend member dm_embed));
                        Requested (MemberKick member reason) (Some e)]))
  /\ (forall data r,
        In (Requested (ResponseSend (success_embed "Member Kicked" data) false) r)
           (happened (snd (kick entry o guild moderator member reason (at_start rows)))) ->
        answer o (MemberKick member reason) = None)
  /\ (forall e, answer o (MemberBan member reason) = Some e ->
        exists dm_embed,
          ban entry o guild moderator member reason (at_start rows)
          = (Failed (ApiError e),
             mkWorld rows [Requested (MemberSend member dm_embed)
                                     (answer o (MemberSend member dm_embed));
                           Requested (MemberBan member reason) (Some e)]))
  /\ (forall data r,
        In (Requested (ResponseSend (success_embed "Member Banned" data) false) r)
           (happened (snd (ban entry o guild moderator member reason (at_start rows)))) ->
        answer o (MemberBan member reason) = None).
Proof.
  intros Hrank. rewrite kick_table, ban_table, Hrank. cbv beta iota zeta delta [negb].
  split_and!.
  - intros e ->. by eexists.
  - intros data r. destruct (answer o (MemberKick _ _)); [|done].
    simpl. intros [|[|[]]]; discriminate.
  - intros e ->. by eexists.
  - intros data r. destruct (answer o (MemberBan _ _)); [|done].
    simpl. intros [|[|[]]]; discriminate.
Qed.

Lemma removal_reported_only_when_done_witness :
  exists dm_embed,
    kick None Staff.powerless Staff.guild 10 20 "spam" (at_start [])
    = (Failed (ApiError Forbidden),
       mkWorld [] [Requested (MemberSend 20 dm_embed)
                             (answer Staff.powerless (MemberSend 20 dm_embed));
                   Requested (MemberKick 20 "spam") (Some Forbidden)]).
Proof.
  apply (proj1 (removal_reported_only_when_done None Staff.powerless Staff.guild 10 20
                  "spam" [] eq_refl)).
  reflexivity.
Defined.

(** X8. [_send_mod_log] writes to the first text channel of the guild
    whose name is the configured one (["mod-log"] when the key is absent):
    either no channel has that name, and then nothing is sent, the miss is
    logged and the helper returns normally; or the embed is sent to the
    first channel of that name and to no other. *)
Theorem mod_log_goes_to_first_named_channel (entry : option string) (o : Oracle)
    (guild : Guild) (embed : Embed) (rows : list Warning) :
  let wanted := default "mod-log" entry in
  (List.Forall (fun ch => channel_name ch <> wanted) (text_channels guild)
   /\ _send_mod_log entry o guild embed (at_start rows)
      = (Done tt, mkWorld rows [Logged wanted]))
  \/ (exists before ch after,
        text_channels guild = (before ++ ch :: after)%list
        /\ channel_name ch = wanted
        /\ List.Forall (fun ch' => channel_name ch' <> wanted) before
        /\ happened (snd (_send_mod_log entry o guild embed (at_start rows)))
           = [Requested (TextChannelSend (channel_id ch) embed)
                        (answer o (TextChannelSend (channel_id ch) embed))]
        /\ warnings_table (snd (_send_mod_log entry o guild embed (at_start rows))) = rows).
Proof.
  intros wanted. rewrite send_mod_log_spec. fold wanted.
  destruct (get_text_channel guild wanted) as [ch|] eqn:Hget; unfold get_text_channel in Hget.
  - right. apply find_first in Hget as (before & after & Hl & Hname & Hbefore).
    exists before, ch, after. split_and!; try done.
    + by apply String.eqb_eq.
    + eapply List.Forall_impl; [|exact Hbefore]. intros ch' Hne. by apply String.eqb_neq.
  - left. split; [|done]. apply List.Forall_forall. intros ch Hin.
    apply (List.find_none _ _ Hget) in Hin. by apply String.eqb_neq.
Qed.

(** [/mute] by the answers of the environment. *)
Lemma mute_table (entry : option string) (o : Oracle) (py : Interpreter) (guild : Guild)
    (moderator member : Z) (duration : list N) (rows : list Warning) :
  let refuse (title : string) := ResponseSend (error_embed title []) true in
  let ended (r : option Exc) := match r with None => Done tt | Some e => Failed (ApiError e) end in
  let once (r : Request) := (ended (answer o r), mkWorld rows [Requested r (answer o r)]) in
  mute entry o py guild moderator member duration (at_start rows)
  = if negb (bot_outranks guild member) then once (refuse "Cannot Mute")
    else
      match _parse_duration py duration with
      | Raises e => (Failed (Builtin e), at_start rows)
      | Value None => once (refuse "Invalid Duration")
      | Value (Some delta) =>
          if _MAX_TIMEOUT <? delta then once (refuse "Duration Too Long")
          else
            let timeout := MemberMute member delta moderator in
            match answer o timeout with
            | Some e => (Failed (ApiError e), mkWorld rows [Requested timeout (Some e)])
            | None =>
                (_send_mod_log entry o guild
                   (mod_log_embed "Member Muted" moderator member
                                  (Text (codepoints "Duration: " ++ duration))) ;;
                 request o (ResponseSend (success_embed "Member Muted"
                                            [Mention member; Text duration]) false))%command
                  (mkWorld rows [Requested timeout None])
            end
      end.
Proof.
  intros refuse ended once. subst refuse ended once.
  unfold mute, _can_action_member, at_start, cmd_bind.
  destruct (bot_outranks guild member); cbv beta iota delta [negb].
  2:{ by rewrite request_spec. }
  destruct (_parse_duration py duration) as [[delta|]|e];
    cbv beta iota delta [checked cmd_ret cmd_raise].
  - destruct (_MAX_TIMEOUT <? delta); [by rewrite request_spec|].
    rewrite request_spec. cbv beta iota delta [warnings_table happened].
    destruct (answer o (MemberMute _ _ _)); [done|].
    done.
  - by rewrite request_spec.
  - done.
Qed.

Lemma mod_log_then_reply_events (entry : option string) (o : Oracle) (guild : Guild)
    (embed : Embed) (reply : Request) (w : World) :
  exists tail,
    happened (snd ((_send_mod_log entry o guild embed ;; request o reply)%command w))
    = (happened w ++ tail)%list
    /\ warnings_table (snd ((_send_mod_log entry o guild embed ;; request o reply)%command w))
       = warnings_table w
    /\ List.Forall (fun ev => (exists entry, ev = Logged entry)
                              \/ (exists ch e r, ev = Requested (TextChannelSend ch e) r)
                              \/ (exists r, ev = Requested reply r)) tail.
Proof.
  unfold cmd_bind. rewrite send_mod_log_spec.
  destruct (get_text_channel guild (default "mod-log" entry)) as [ch|].
  - cbv zeta. destruct (answer o (TextChannelSend _ _)).
    + eexists. split; [reflexivity|]. split; [done|]. repeat first [apply List.Forall_nil | apply List.Forall_cons]; eauto 8.
    + rewrite request_spec. cbv beta iota delta [warnings_table happened snd].
      rewrite <- app_assoc. eexists. split; [reflexivity|]. split; [done|].
      repeat first [apply List.Forall_nil | apply List.Forall_cons]; eauto 8.
  - rewrite request_spec. cbv beta iota delta [warnings_table happened snd].
    rewrite <- app_assoc. eexists. split; [reflexivity|]. split; [done|].
    repeat first [apply List.Forall_nil | apply List.Forall_cons]; eauto 8.
Qed.

(** X9. [/mute] times a member out exactly when the bot outranks the
    member and the duration parses to at most 28 days; the timeout is then
    asked for the target, for the parsed number of seconds, in the name of
    the invoking moderator, and for nobody else. *)
Theorem mute_times_out_iff (entry : option string) (o : Oracle) (py : Interpreter)
    (guild : Guild) (moderator member : Z) (duration : list N) (rows : list Warning)
    (who seconds muted_by : Z) (result : option Exc) :
  In (Requested (MemberMute who seconds muted_by) result)
     (happened (snd (mute entry o py guild moderator member duration (at_start rows))))
  <-> bot_outranks guild member = true
      /\ _parse_duration py duration = Value (Some seconds)
      /\ seconds <= 28 * 86400
      /\ who = member /\ muted_by = moderator
      /\ result = answer o (MemberMute member seconds moderator).
Proof.
  rewrite mute_table. cbv zeta.
  destruct (bot_outranks guild member); cbv beta iota delta [negb].
  2:{ simpl. split; [intros [|[]]; discriminate | by intros [? _]]. }
  destruct (_parse_duration py duration) as [[delta|]|e].
  - destruct (_MAX_TIMEOUT <? delta) eqn:Hmax.
    + apply Z.ltb_lt in Hmax. unfold _MAX_TIMEOUT in Hmax. simpl. split.
      * intros [|[]]; discriminate.
      * intros (_ & [= ->] & ? & _). lia.
    + apply Z.ltb_ge in Hmax. unfold _MAX_TIMEOUT in Hmax.
      destruct (answer o (MemberMute member delta moderator)) as [e|] eqn:Hanswer.
      * simpl. split.
        -- intros [[= -> -> -> <-]|[]]. by rewrite Hanswer.
        -- intros (_ & [= ->] & _ & -> & -> & ->). left. by rewrite Hanswer.
      * destruct (mod_log_then_reply_events entry o guild
                    (mod_log_embed "Member Muted" moderator member
                                   (Text (codepoints "Duration: " ++ duration)))
                    (ResponseSend (success_embed "Member Muted"
                                     [Mention member; Text duration]) false)
                    (mkWorld rows [Requested (MemberMute member delta moderator) None]))
          as (tail & -> & _ & Htail).
        simpl. split.
        -- intros [[= -> -> -> <-]|Hin]; [by rewrite Hanswer|].
           exfalso. rewrite List.Forall_forall in Htail.
           apply Htail in Hin as [[? ?]|[(? & ? & ? & ?)|[? ?]]]; discriminate.
        -- intros (_ & [= ->] & _ & -> & -> & ->). left. by rewrite Hanswer.
  - simpl. split; [intros [|[]]; discriminate | by intros (_ & ? & _)].
  - simpl. split; [done | by intros (_ & ? & _)].
Qed.

(** X10. For a duration written as decimal digits and a letter of the
    class, [/mute] goes by the number.  With more digits than the
    interpreter converts, the [ValueError] of [int] ends the command before
    any reply is sent; else, with the long s for a letter, the [KeyError] of
    the lookup does.  Else the duration has a magnitude: up to 28 days the
    member is timed out for exactly that long; above 28 days and up to
    999999999 days the only effect is the ephemeral reply "Duration Too
    Long"; above that the [OverflowError] of [timedelta] ends the command
    before any reply is sent. *)
Theorem mute_by_magnitude (entry : option string) (o : Oracle) (py : Interpreter)
    (guild : Guild) (moderator member : Z) (digits : list N) (letter : N)
    (rows : list Warning) :
  bot_outranks guild member = true ->
  digits_apart py ->
  digits <> [] ->
  forallb (isdecimal py) digits = true ->
  in_unit_class letter = true ->
  let too_long := ResponseSend (error_embed "Duration Too Long" []) true in
  let outcome := mute entry o py guild moderator member (digits ++ [letter])
                      (at_start rows) in
  (exceeds_int_max_str_digits py digits = true ->
   outcome = (Failed (Builtin ValueError), at_start rows))
  /\ (exceeds_int_max_str_digits py digits = false ->
      (letter = 383%N -> outcome = (Failed (Builtin KeyError), at_start rows))
      /\ (forall u : DurationUnit,
            _DURATION_UNITS (lower_codepoint letter) = Some u ->
            let seconds := int_of_digits py digits * seconds_per u in
            (seconds <= 28 * 86400 ->
             List.head (happened (snd outcome))
             = Some (Requested (MemberMute member seconds moderator)
                               (answer o (MemberMute member seconds moderator))))
            /\ (28 * 86400 < seconds -> seconds / 86400 <= 999999999 ->
                happened (snd outcome) = [Requested too_long (answer o too_long)])
            /\ (999999999 < seconds / 86400 ->
                outcome = (Failed (Builtin OverflowError), at_start rows)))).
Proof.
  intros Hrank Hpy Hne Hdig Hletter too_long outcome.
  assert (_DURATION_RE_match py (strip (digits ++ [letter])) = Some (digits, letter))
    as Hmatch.
  { by apply (parser_match_shape py [] digits [] [] letter). }
  subst outcome. rewrite mute_table, Hrank. unfold _parse_duration.
  rewrite Hmatch. unfold int.
  cbv beta iota zeta delta [negb]. unfold _MAX_TIMEOUT.
  split.
  { by intros ->. }
  intros ->. split.
  { intros ->. done. }
  intros u Hu. rewrite Hu.
  rewrite (timedelta_nonneg u _ (int_of_digits_nonneg py digits)).
  set (seconds := int_of_digits py digits * seconds_per u).
  split_and!.
  - intros Hshort.
    assert (seconds / 86400 <= 28) by (apply Z.div_le_upper_bound; lia).
    destruct (999999999 <? seconds / 86400) eqn:Hover; [apply Z.ltb_lt in Hover; lia|].
    destruct (28 * 86400 <? seconds) eqn:Hmax; [apply Z.ltb_lt in Hmax; lia|].
    destruct (answer o (MemberMute member seconds moderator)) eqn:Hanswer; [done|].
    destruct (mod_log_then_reply_events entry o guild
                (mod_log_embed "Member Muted" moderator member
                   (Text (codepoints "Duration: " ++ digits ++ [letter])))
                (ResponseSend (success_embed "Member Muted"
                                 [Mention member; Text (digits ++ [letter])]) false)
                (mkWorld rows [Requested (MemberMute member seconds moderator) None]))
      as (tail & -> & _). done.
  - intros Hlong Hfits.
    destruct (999999999 <? seconds / 86400) eqn:Hover; [apply Z.ltb_lt in Hover; lia|].
    destruct (28 * 86400 <? seconds) eqn:Hmax; [done|apply Z.ltb_ge in Hmax; lia].
  - intros Hover. apply Z.ltb_lt in Hover. by rewrite Hover.
Qed.

(** A billion days overflow; a number of 4301 digits is not converted; the
    long s has no unit; two hours, the two written in Arabic-Indic, are
    7200 seconds. *)
Lemma mute_by_magnitude_witness :
  mute None Staff.calm Staff.python Staff.guild 10 20 (codepoints "1000000000d")
       (at_start [])
  = (Failed (Builtin OverflowError), at_start [])
  /\ mute None Staff.calm Staff.python Staff.guild 10 20
          (List.repeat 49%N 4301 ++ [115%N]) (at_start [])
     = (Failed (Builtin ValueError), at_start [])
  /\ mute None Staff.calm Staff.python Staff.guild 10 20 [53; 383]%N (at_start [])
     = (Failed (Builtin KeyError), at_start [])
  /\ List.head (happened (snd (mute None Staff.calm Staff.python Staff.guild 10 20
                                    [1634; 72]%N (at_start []))))
     = Some (Requested (MemberMute 20 7200 10) None).
Proof.
  split_and!.
  - destruct (mute_by_magnitude None Staff.calm Staff.python Staff.guild 10 20
                (codepoints "1000000000") 100%N [] eq_refl staff_python_digits_apart)
      as [_ Hconverted]; [discriminate | reflexivity | reflexivity |].
    destruct (Hconverted eq_refl) as [_ Hunit].
    destruct (Hunit Days eq_refl) as (_ & _ & Hover). apply Hover. by vm_compute.
  - destruct (mute_by_magnitude None Staff.calm Staff.python Staff.guild 10 20
                (List.repeat 49%N 4301) 115%N [] eq_refl staff_python_digits_apart)
      as [Hrefused _]; [discriminate | by vm_compute | reflexivity |].
    apply Hrefused. by vm_compute.
  - destruct (mute_by_magnitude None Staff.calm Staff.python Staff.guild 10 20
                [53%N] 383%N [] eq_refl staff_python_digits_apart)
      as [_ Hconverted]; [discriminate | reflexivity | reflexivity |].
    destruct (Hconverted eq_refl) as [Hlong_s _]. by apply Hlong_s.
  - destruct (mute_by_magnitude None Staff.calm Staff.python Staff.guild 10 20
                [1634%N] 72%N [] eq_refl staff_python_digits_apart)
      as [_ Hconverted]; [discriminate | reflexivity | reflexivity |].
    destruct (Hconverted eq_refl) as [_ Hunit].
    destruct (Hunit Hours eq_refl) as (Hshort & _). apply Hshort. by vm_compute.
Defined.

(** ** Warnings *)

Lemma next_warning_id_above (rows : list Warning) (row : Warning) :
  In row rows -> warning_id row < next_warning_id rows.
Proof.
  unfold next_warning_id. induction rows as [|r rows IH]; [done|].
  simpl. intros [->|Hin]; [lia|]. specialize (IH Hin). lia.
Qed.

(** X11. [add_warning] gives the new row an id no stored row has, so the
    ids of the table stay pairwise distinct; it appends that one row, with
    the guild, user, moderator and reason it was given, and returns its id. *)
Theorem add_warning_fresh_id (o : Oracle) (guild_id user_id moderator_id : Z)
    (reason : string) (w : World) :
  List.NoDup (List.map warning_id (warnings_table w)) ->
  exists row,
    add_warning o guild_id user_id moderator_id reason w
    = (Done (warning_id row), mkWorld (warnings_table w ++ [row]) (happened w))
    /\ warning_guild row = guild_id /\ warning_user row = user_id
    /\ warning_moderator row = moderator_id /\ warning_reason row = reason
    /\ ~ In (warning_id row) (List.map warning_id (warnings_table w))
    /\ List.NoDup (List.map warning_id (warnings_table w ++ [row])).
Proof.
  intros Hnodup. eexists. split; [reflexivity|]. simpl. split_and!; try done.
  - intros (row & Hid & Hin)%List.in_map_iff.
    apply next_warning_id_above in Hin. lia.
  - rewrite List.map_app. simpl. apply NoDup_ListNoDup.
    apply NoDup_app. split_and!.
    + by apply NoDup_ListNoDup.
    + intros x Hx [Heq|[]]%list_elem_of_In%List.in_inv. subst x.
      apply list_elem_of_In, List.in_map_iff in Hx as (row & Hid & Hin).
      apply next_warning_id_above in Hin. lia.
    + apply NoDup_singleton.
Qed.

Lemma add_warning_fresh_id_witness :
  exists row,
    add_warning Staff.calm 1 20 10 "rude" (at_start Staff.rows)
    = (Done (warning_id row), mkWorld (Staff.rows ++ [row]) [])
    /\ warning_guild row = 1 /\ warning_user row = 20
    /\ warning_moderator row = 10 /\ warning_reason row = "rude"
    /\ ~ In (warning_id row) (List.map warning_id Staff.rows)
    /\ List.NoDup (List.map warning_id (Staff.rows ++ [row])).
Proof.
  apply (add_warning_fresh_id Staff.calm 1 20 10 "rude" (at_start Staff.rows)).
  simpl. repeat constructor; simpl; intuition discriminate.
Defined.

Lemma count_after_add (guild_id user_id : Z) (rows : list Warning) (row : Warning) :
  Z.of_nat (List.length (List.filter (warning_of guild_id user_id) (rows ++ [row])))
  = Z.of_nat (List.length (List.filter (warning_of guild_id user_id) rows))
    + (if warning_of guild_id user_id row then 1 else 0).
Proof.
  rewrite List.filter_app, length_app. simpl.
  destruct (warning_of guild_id user_id row); simpl; lia.
Qed.

(** [/warn] by the answers of the environment. *)
Lemma warn_table (entry : option string) (o : Oracle) (guild : Guild)
    (moderator member : Z) (reason : string) (rows : list Warning) :
  let row := mkWarning (next_warning_id rows) (guild_ident guild) member moderator reason
                       (current_timestamp o) in
  let total := Z.of_nat (List.length (List.filter (warning_of (guild_ident guild) member)
                                                  (rows ++ [row]))) in
  let dm := MemberSend member (warning_embed "You have been warned"
                                 [Lit (guild_name guild); Lit reason; Num total]) in
  let reply := ResponseSend (success_embed "Member Warned"
                               [Mention member; Lit reason; Num total]) false in
  warn entry o guild moderator member reason (at_start rows)
  = (_send_mod_log entry o guild (mod_log_embed "Member Warned" moderator member reason) ;;
     request o reply)%command
      (mkWorld (rows ++ [row]) [Requested dm (answer o dm)]).
Proof.
  intros row total dm reply. subst row total dm reply.
  unfold warn, at_start, cmd_bind at 1 2 3, add_warning, get_warning_count, best_effort.
  cbv beta iota delta [warnings_table happened]. rewrite request_spec.
  cbv beta iota delta [warnings_table happened]. by destruct (answer o (MemberSend _ _)).
Qed.

(** X12. [/warn] stores the warning before it tells anyone: whatever the
    DM, the mod-log and the reply answer, the table afterwards is the old
    one with one new row for the member; the total shown in the DM is the
    member's earlier count plus one; the count of every other member, and
    of this member in another guild, is what it was. *)
Theorem warn_counts_the_new_warning (entry : option string) (o : Oracle) (guild : Guild)
    (moderator member : Z) (reason : string) (rows : list Warning) :
  let before := fun g u => Z.of_nat (List.length (List.filter (warning_of g u) rows)) in
  let after := warnings_table (snd (warn entry o guild moderator member reason
                                         (at_start rows))) in
  let dm := MemberSend member (warning_embed "You have been warned"
                                 [Lit (guild_name guild); Lit reason;
                                  Num (before (guild_ident guild) member + 1)]) in
  (exists row, after = (rows ++ [row])%list
               /\ warning_guild row = guild_ident guild /\ warning_user row = member
               /\ warning_moderator row = moderator /\ warning_reason row = reason)
  /\ List.head (happened (snd (warn entry o guild moderator member reason (at_start rows))))
     = Some (Requested dm (answer o dm))
  /\ fst (get_warning_count (guild_ident guild) member (mkWorld after []))
     = Done (before (guild_ident guild) member + 1)
  /\ (forall g u, (g, u) <> (guild_ident guild, member) ->
        fst (get_warning_count g u (mkWorld after [])) = Done (before g u)).
Proof.
  intros before after dm. subst after dm. rewrite warn_table. cbv zeta.
  set (row := mkWarning (next_warning_id rows) (guild_ident guild) member moderator reason
                        (current_timestamp o)).
  assert (warning_of (guild_ident guild) member row = true) as Hmine.
  { unfold warning_of, row. simpl. by rewrite !Z.eqb_refl. }
  pose proof (count_after_add (guild_ident guild) member rows row) as Hcount.
  rewrite Hmine in Hcount. fold (before (guild_ident guild) member) in Hcount.
  rewrite Hcount.
  destruct (mod_log_then_reply_events entry o guild
              (mod_log_embed "Member Warned" moderator member reason)
              (ResponseSend (success_embed "Member Warned"
                 [Mention member; Lit reason; Num (before (guild_ident guild) member + 1)])
                 false)
              (mkWorld (rows ++ [row])
                 [Requested (MemberSend member (warning_embed "You have been warned"
                      [Lit (guild_name guild); Lit reason;
                       Num (before (guild_ident guild) member + 1)]))
                    (answer o (MemberSend member (warning_embed "You have been warned"
                      [Lit (guild_name guild); Lit reason;
                       Num (before (guild_ident guild) member + 1)])))]))
    as (tail & -> & -> & _).
  simpl warnings_table. split_and!.
  - by exists row.
  - done.
  - unfold get_warning_count. simpl. by rewrite Hcount.
  - intros g u Hother. unfold get_warning_count. simpl fst.
    rewrite count_after_add.
    assert (warning_of g u row = false) as ->; [|f_equal; unfold before; lia].
    unfold warning_of, row. simpl.
    destruct (Z.eqb_spec (guild_ident guild) g), (Z.eqb_spec member u); try done.
    subst. done.
Qed.

(** ** The error handler *)

Lemma respond_or_followup_spec (o : Oracle) (embed : Embed) (w : World) :
  let r := if response_is_done o then FollowupSend embed true else ResponseSend embed true in
  respond_or_followup o embed w
  = (inl (match answer o r with None => Done tt | Some e => Failed (ApiError e) end),
     mkWorld (warnings_table w) (happened w ++ [Requested r (answer o r)])).
Proof.
  unfold respond_or_followup, err_request.
  destruct (response_is_done o); by rewrite request_spec.
Qed.

(** X13. [cog_app_command_error] answers every error with exactly one
    ephemeral message, as a follow-up when the interaction was already
    answered and as the first response otherwise; it never raises the
    error again, so the re-raise of [on_permission_error] is not reached
    from it; and it logs the error only when the error is neither a check
    failure nor a [NotFound] raised by the command. *)
Theorem error_handler_replies_once (o : Oracle) (error : AppCommandError)
    (rows : list Warning) :
  exists embed,
    let r := if response_is_done o then FollowupSend embed true
             else ResponseSend embed true in
    let unknown := negb (is_CheckFailure error || original_is_NotFound error) in
    cog_app_command_error o error (at_start rows)
    = (inl (match answer o r with None => Done tt | Some e => Failed (ApiError e) end),
       mkWorld rows ((if unknown then [Logged "Unhandled error in moderation cog"] else [])
                     ++ [Requested r (answer o r)]))
    /\ color embed = Red
    /\ (title embed = "Unexpected Error" <-> unknown = true).
Proof.
  unfold cog_app_command_error, on_permission_error, at_start.
  destruct error as [missing|missing| |[]|]; simpl;
    rewrite respond_or_followup_spec; eexists; (split; [reflexivity|]); simpl;
    (split; [reflexivity|]); split; (done || discriminate).
Qed.

(** X14. A [BotMissingPermissions] error is answered as a failed check of
    the user, with "Permission Denied": it is a [CheckFailure], which the
    handler tests first.  No error at all gets the "Bot Missing
    Permissions" message. *)
Theorem bot_missing_permissions_reported_as_denied (o : Oracle) (rows : list Warning) :
  (forall missing,
     exists r,
       happened (snd (cog_app_command_error o (BotMissingPermissions missing)
                        (at_start rows)))
       = [Requested r (answer o r)]
       /\ (r = ResponseSend (error_embed "Permission Denied" []) true
           \/ r = FollowupSend (error_embed "Permission Denied" []) true))
  /\ (forall error data ephemeral result,
        ~ In (Requested (ResponseSend (error_embed "Bot Missing Permissions" data)
                                      ephemeral) result)
             (happened (snd (cog_app_command_error o error (at_start rows))))
        /\ ~ In (Requested (FollowupSend (error_embed "Bot Missing Permissions" data)
                                         ephemeral) result)
                (happened (snd (cog_app_command_error o error (at_start rows))))).
Proof.
  split.
  - intros missing. unfold cog_app_command_error, on_permission_error, at_start. simpl.
    rewrite respond_or_followup_spec. simpl. eexists. split; [reflexivity|].
    destruct (response_is_done o); auto.
  - intros error data ephemeral result.
    unfold cog_app_command_error, on_permission_error, at_start.
    destruct error as [missing|missing| |[]|]; simpl;
      rewrite respond_or_followup_spec; simpl;
      destruct (response_is_done o); simpl; split; intros Hin;
      repeat (destruct Hin as [Hin|Hin]; [discriminate|]); done.
Qed.

(** X15. The members [is_moderator] lets through are exactly the members
    the auto-moderation listener leaves alone for their permissions; and a
    member it turns away is told "Permission Denied" by the error handler,
    with the three permissions named. *)
Theorem moderators_are_the_exempt (perms : Permissions) (o : Oracle) (rows : list Warning) :
  (is_moderator perms = inl true <-> has_moderation_permission perms = true)
  /\ (has_moderation_permission perms = false ->
      exists error r,
        is_moderator perms = inr error
        /\ happened (snd (cog_app_command_error o error (at_start rows)))
           = [Requested r (answer o r)]
        /\ exists embed,
             (r = ResponseSend embed true \/ r = FollowupSend embed true)
             /\ title embed = "Permission Denied"
             /\ data embed = [Lit "manage_messages"; Lit "kick_members"; Lit "ban_members"]).
Proof.
  unfold is_moderator, has_moderation_permission.
  destruct (manage_messages perms || kick_members perms || ban_members perms); split.
  - done.
  - done.
  - split; discriminate.
  - intros _. eexists. eexists. split; [reflexivity|].
    unfold cog_app_command_error, on_permission_error, at_start. simpl.
    rewrite respond_or_followup_spec. simpl. split; [reflexivity|].
    eexists. split; [destruct (response_is_done o); eauto|]. done.
Qed.

Lemma moderators_are_the_exempt_witness :
  exists error r,
    is_moderator Scenario.no_permissions = inr error
    /\ happened (snd (cog_app_command_error Staff.calm error (at_start [])))
       = [Requested r (answer Staff.calm r)]
    /\ exists embed,
         (r = ResponseSend embed true \/ r = FollowupSend embed true)
         /\ title embed = "Permission Denied"
         /\ data embed = [Lit "manage_messages"; Lit "kick_members"; Lit "ban_members"].
Proof.
  apply (proj2 (moderators_are_the_exempt Scenario.no_permissions Staff.calm [])).
  reflexivity.
Defined.

(** ** Mod-log colours *)

Lemma append_assoc (a b c : string) : (a ++ b) ++ c = a ++ (b ++ c).
Proof. induction a as [|x a IH]; [done|]. by rewrite !append_cons, IH. Qed.

(** A string that contains [inner ++ rest] contains [rest]. *)
Lemma str_in_suffix_of_needle (skipped rest hay : string) :
  str_in (skipped ++ rest) hay = true -> str_in rest hay = true.
Proof.
  rewrite !str_in_substring. intros (pre & post & ->).
  exists (pre ++ skipped), post. by rewrite !append_assoc.
Qed.

(** X16. The colour of a mod-log entry is never green: the keywords
    ["unban"] and ["unmute"] of [_MOD_ACTION_COLORS] come after ["ban"] and
    ["mute"], which every action that contains them contains too, so an
    unban is coloured as a ban and an unmute as a mute. *)
Theorem mod_log_never_green (action : string) (moderator target : Z) (reason : string) :
  color (mod_log_embed action moderator target reason) <> Green
  /\ (str_in "unban" (lower action) = true ->
      color (mod_log_embed action moderator target reason) = Red)
  /\ (str_in "unmute" (lower action) = true ->
      str_in "ban" (lower action) = false -> str_in "kick" (lower action) = false ->
      color (mod_log_embed action moderator target reason) = Orange).
Proof.
  unfold mod_log_embed. simpl color. unfold _MOD_ACTION_COLORS, mod_log_color.
  pose proof (str_in_suffix_of_needle "un" "ban" (lower action)) as Hban.
  pose proof (str_in_suffix_of_needle "un" "mute" (lower action)) as Hmute.
  change ("un" ++ "ban") with "unban" in Hban.
  change ("un" ++ "mute") with "unmute" in Hmute.
  destruct (str_in "ban" (lower action)) eqn:H1.
  { split_and!; done. }
  destruct (str_in "unban" (lower action)) eqn:H2.
  { by specialize (Hban eq_refl). }
  destruct (str_in "kick" (lower action)) eqn:H3.
  { split_and!; done. }
  destruct (str_in "mute" (lower action)) eqn:H4.
  { split_and!; done. }
  destruct (str_in "unmute" (lower action)) eqn:H5.
  { by specialize (Hmute eq_refl). }
  destruct (str_in "warn" (lower action)), (str_in "timeout" (lower action));
    split_and!; done.
Qed.

Lemma mod_log_never_green_witness :
  color (mod_log_embed "Member Unbanned" 10 20 "appeal") = Red.
Proof.
  apply (proj1 (proj2 (mod_log_never_green "Member Unbanned" 10 20 "appeal"))).
  reflexivity.
Defined.

(** ** More on the tracker *)

(** X17. Handling a message changes no record of the tracker but the one
    of the message's own (guild, author): the entries of every other
    member, and of the same member in other guilds, are what they were,
    whatever the message, the configuration and the answers of the API. *)
Theorem other_members_untouched (cfg : Config) (tr : Tracker) (ev : Message * Env)
    (key : Z * Z) :
  (forall guild_id, guild (fst ev) = Some guild_id ->
     key <> (guild_id, id (author (fst ev)))) ->
  tracker (handle cfg tr ev) !! key = tr !! key.
Proof.
  destruct ev as [message env]. simpl fst. intros Hother.
  destruct (exempt message) eqn:Hex.
  { unfold handle. simpl fst; simpl snd. by rewrite on_message_exempt. }
  destruct (first_match cfg message) as [w|] eqn:Hfind.
  { by destruct (handle_filter_tracker cfg tr message env w Hex Hfind) as [_ ->]. }
  pose proof Hex as (_ & [g Hg] & _)%exempt_false.
  specialize (Hother g Hg).
  destruct (Z_lt_le_dec
              (identical_count (content message) (checked_record cfg env message g tr))
              (spam_threshold cfg)) as [Hlt|Hge].
  - rewrite (handle_quiet cfg tr message env g Hex Hg Hfind Hlt). simpl.
    by rewrite lookup_insert_ne.
  - destruct (handle_trigger cfg tr message env g Hex Hg Hfind Hge) as (_ & Hreset & Hkept).
    destruct (raised (handle cfg tr (message, env))) as [e|] eqn:Hraised.
    + rewrite Hkept by done. by rewrite lookup_insert_ne.
    + rewrite Hreset by done. by rewrite lookup_delete_ne.
Qed.

Lemma other_members_untouched_witness :
  tracker (handle Scenario.config Scenario.two_his
             (Scenario.says 3 "hi", Scenario.calm 4)) !! (2, 7)
  = Scenario.two_his !! (2, 7).
Proof.
  apply other_members_untouched. intros guild_id [= <-]. discriminate.
Defined.

(** ** The order of the stored timestamps *)

(** X18. On a record whose timestamps never decrease, [prune] removes a
    prefix: what is left is the stored list without its first [n] entries,
    and each of those [n] entries is older than the cutoff. *)
Theorem prune_drops_a_prefix (cutoff : Q) (r : MessageRecord) :
  Sorted.StronglySorted Qle (timestamps r) ->
  exists n : nat,
    messages (prune cutoff r) = List.skipn n (messages r)
    /\ List.Forall (fun m => (snd m < cutoff)%Q) (List.firstn n (messages r)).
Proof.
  unfold timestamps, prune. simpl messages.
  induction (messages r) as [|[c t] l IH]; intros Hsorted.
  - by exists 0%nat.
  - simpl in Hsorted. inversion Hsorted as [|? ? Hrest Hall]; subst.
    simpl List.filter. destruct (ge_cutoff cutoff (c, t)) eqn:Hge.
    + exists 0%nat. split; [|constructor]. simpl List.skipn. f_equal.
      apply ge_cutoff_iff in Hge. simpl in Hge.
      clear IH Hsorted Hrest. induction l as [|[c' t'] l IHl]; [done|].
      simpl in Hall. inversion Hall as [|? ? Hle Hall']; subst.
      simpl List.filter.
      assert (ge_cutoff cutoff (c', t') = true) as ->.
      { apply ge_cutoff_iff. simpl. by apply (Qle_trans _ t). }
      f_equal. by apply IHl.
    + destruct (IH Hrest) as (n & Hskip & Hold). exists (S n). simpl.
      split; [done|]. constructor; [|done]. simpl.
      apply Qnot_le_lt. intros Hle.
      assert (ge_cutoff cutoff (c, t) = true) by (by apply ge_cutoff_iff).
      congruence.
Qed.

Lemma prune_drops_a_prefix_witness :
  exists n : nat,
    messages (prune 5 (add "hi" 15 (add "yo" 7 (add "hi" 0 new_record))))
    = List.skipn n (messages (add "hi" 15 (add "yo" 7 (add "hi" 0 new_record))))
    /\ List.Forall (fun m => (snd m < 5)%Q)
         (List.firstn n (messages (add "hi" 15 (add "yo" 7 (add "hi" 0 new_record))))).
Proof.
  apply prune_drops_a_prefix. repeat constructor; vm_compute; discriminate.
Defined.

Lemma chronological_later (now later : Q) (r : MessageRecord) :
  (now <= later)%Q -> chronological now r -> chronological later r.
Proof.
  intros Hle [Hsorted Hall]. split; [done|].
  eapply List.Forall_impl; [|exact Hall]. intros t Ht. by apply (Qle_trans _ now).
Qed.

Lemma chronological_checked (cfg : Config) (env : Env) (message : Message)
    (guild_id : Z) (tr : Tracker) (now : Q) :
  (forall key r, tr !! key = Some r -> chronological now r) ->
  (now <= monotonic env)%Q ->
  chronological (monotonic env) (checked_record cfg env message guild_id tr).
Proof.
  intros Hinv Hle. unfold checked_record.
  set (cutoff := (monotonic env - inject_Z (spam_interval cfg))%Q).
  assert (chronological (monotonic env) (record_at (guild_id, id (author message)) tr))
    as [Hsorted Hall].
  { unfold record_at. destruct (tr !! _) as [r|] eqn:Hlook; simpl.
    - apply (chronological_later now); [done|]. by apply (Hinv _ _ Hlook).
    - split; constructor. }
  unfold chronological, timestamps, add, prune in *. simpl messages.
  induction (messages (record_at (guild_id, id (author message)) tr)) as [|[c t] l IH].
  - simpl. split; repeat constructor. apply Qle_refl.
  - simpl in Hsorted, Hall.
    inversion Hsorted as [|? ? Hrest Hfirst]; subst.
    inversion Hall as [|? ? Ht Hall']; subst.
    destruct (IH Hrest Hall') as [IHsorted IHall].
    simpl List.filter. destruct (ge_cutoff cutoff (c, t)); [|by split].
    simpl. split; constructor; try done.
    rewrite List.map_app. apply List.Forall_app. split.
    + rewrite List.Forall_forall in Hfirst |- *. intros t' Hin. apply Hfirst.
      apply List.in_map_iff in Hin as (m & <- & Hin).
      apply List.filter_In in Hin as [Hin _]. by apply List.in_map.
    + by repeat constructor.
Qed.

Lemma handle_keeps_chronological (cfg : Config) (tr : Tracker) (ev : Message * Env)
    (now : Q) :
  (forall key r, tr !! key = Some r -> chronological now r) ->
  (now <= monotonic (snd ev))%Q ->
  forall key r, tracker (handle cfg tr ev) !! key = Some r ->
                chronological (monotonic (snd ev)) r.
Proof.
  destruct ev as [message env]. simpl snd. intros Hinv Hle.
  assert (forall key r, tr !! key = Some r -> chronological (monotonic env) r) as Hinv'.
  { intros key r Hlook. apply (chronological_later now); [done|]. by apply (Hinv key). }
  destruct (exempt message) eqn:Hex.
  { unfold handle. simpl fst; simpl snd. by rewrite on_message_exempt. }
  destruct (first_match cfg message) as [w|] eqn:Hfind.
  { by destruct (handle_filter_tracker cfg tr message env w Hex Hfind) as [_ ->]. }
  pose proof Hex as (_ & [g Hg] & _)%exempt_false.
  assert (forall key r,
            <[(g, id (author message)) := checked_record cfg env message g tr]> tr !! key
            = Some r -> chronological (monotonic env) r) as Hkept.
  { intros key r Hlook.
    destruct (decide ((g, id (author message)) = key)) as [<-|Hne].
    - rewrite lookup_insert_eq in Hlook. injection Hlook as <-.
      by apply (chronological_checked cfg env message g tr now).
    - rewrite lookup_insert_ne in Hlook by done. by apply (Hinv' key). }
  destruct (Z_lt_le_dec
              (identical_count (content message) (checked_record cfg env message g tr))
              (spam_threshold cfg)) as [Hlt|Hge].
  - by rewrite (handle_quiet cfg tr message env g Hex Hg Hfind Hlt).
  - destruct (handle_trigger cfg tr message env g Hex Hg Hfind Hge) as (_ & Hreset & Hstay).
    destruct (raised (handle cfg tr (message, env))) as [e|] eqn:Hraised.
    + by rewrite Hstay.
    + rewrite Hreset by done. intros key r [_ Hlook]%lookup_delete_Some.
      by apply (Hinv' key).
Qed.

(** X19. When the clock readings of the events never decrease, every
    record of the tracker keeps its timestamps in non-decreasing order,
    from the empty tracker on and whether or not a call of the listener
    raised: so every prune of a run removes a prefix of the stored list. *)
Theorem run_keeps_timestamps_ordered (cfg : Config) (evs : list (Message * Env)) :
  Sorted.StronglySorted Qle (List.map (fun ev => monotonic (snd ev)) evs) ->
  forall key r,
    final_tracker ∅ (run cfg ∅ evs) !! key = Some r ->
    Sorted.StronglySorted Qle (timestamps r).
Proof.
  intros Hclock.
  assert (forall (tr : Tracker) (now : Q),
            (forall key r, tr !! key = Some r -> chronological now r) ->
            Sorted.StronglySorted Qle (now :: List.map (fun ev => monotonic (snd ev)) evs) ->
            forall key r, final_tracker tr (run cfg tr evs) !! key = Some r ->
                          exists later, chronological later r) as Hgen.
  { clear Hclock. induction evs as [|ev evs IH]; intros tr now Hinv Hsorted key r Hlook.
    - exists now. by apply (Hinv key).
    - rewrite run_cons, final_tracker_cons in Hlook. simpl in Hsorted.
      inversion Hsorted as [|? ? Hrest Hfirst]; subst.
      inversion Hfirst as [|? ? Hle _]; subst.
      apply (IH (tracker (handle cfg tr ev)) (monotonic (snd ev))) with key; [|done|done].
      by apply (handle_keeps_chronological cfg tr ev now). }
  intros key r Hlook.
  destruct evs as [|ev evs].
  - unfold final_tracker in Hlook. simpl in Hlook. by rewrite lookup_empty in Hlook.
  - assert (exists later, chronological later r) as [later [Hsorted _]]; [|done].
    apply (Hgen ∅ (monotonic (snd ev))) with key; [| |done].
    + intros key' r' Hlook'. by rewrite lookup_empty in Hlook'.
    + simpl in Hclock |- *. constructor; [done|].
      inversion Hclock as [|? ? _ Hfirst]; subst. constructor; [apply Qle_refl|done].
Qed.

Lemma run_keeps_timestamps_ordered_witness :
  Sorted.StronglySorted Qle
    (timestamps (mkRecord [("hi", 0%Q); ("yo", 2%Q); ("hi", 4%Q)])).
Proof.
  apply (run_keeps_timestamps_ordered Scenario.config
           [(Scenario.says 1 "hi", Scenario.calm 0); (Scenario.says 2 "yo", Scenario.calm 2);
            (Scenario.says 3 "hi", Scenario.calm 4)]) with (1, 7).
  - repeat constructor; vm_compute; discriminate.
  - reflexivity.
Defined.

(** ** Edge values of the configuration *)

(** X20. With a threshold of 1 or less, every message that reaches the
    spam check fires the spam action, the first one of a member included:
    the message just recorded always counts. *)
Theorem low_threshold_fires_always (cfg : Config) (tr : Tracker) (message : Message)
    (env : Env) :
  spam_threshold cfg <= 1 ->
  exempt message = false ->
  first_match cfg message = None ->
  action (handle cfg tr (message, env)) = SpamAction.
Proof.
  intros Hlow Hex Hfind. pose proof Hex as (_ & [g Hg] & _)%exempt_false.
  apply (handle_trigger cfg tr message env g Hex Hg Hfind).
  rewrite count_checked.
  pose proof (identical_count_nonneg (content message)
                (prune (monotonic env - inject_Z (spam_interval cfg))
                       (record_at (g, id (author message)) tr))).
  lia.
Qed.

Lemma low_threshold_fires_always_witness :
  action (handle (mkConfig None (Some 1) None) ∅ (Scenario.says 1 "hi", Scenario.calm 0))
  = SpamAction.
Proof.
  apply (low_threshold_fires_always (mkConfig None (Some 1) None) ∅
           (Scenario.says 1 "hi") (Scenario.calm 0)); [vm_compute; discriminate | reflexivity..].
Defined.

(** X21. With a negative interval the cutoff lies after the clock reading,
    so a check drops every message stored so far and counts the new one
    alone: whatever was sent before, the record afterwards holds just the
    new message, and nothing fires for a threshold above 1. *)
Theorem negative_interval_forgets_everything (cfg : Config) (tr : Tracker)
    (message : Message) (env : Env) (guild_id : Z) :
  spam_interval cfg < 0 ->
  1 < spam_threshold cfg ->
  exempt message = false -> guild message = Some guild_id ->
  first_match cfg message = None ->
  List.Forall (fun t => (t <= monotonic env)%Q)
              (timestamps (record_at (guild_id, id (author message)) tr)) ->
  handle cfg tr (message, env)
  = mkResult NoAction [] None
      (<[(guild_id, id (author message)) := mkRecord [(content message, monotonic env)]]> tr).
Proof.
  intros Hneg Hthr Hex Hg Hfind Hpast.
  assert (checked_record cfg env message guild_id tr
          = mkRecord [(content message, monotonic env)]) as Hchecked.
  { unfold checked_record, add, prune. simpl messages. f_equal.
    replace (List.filter _ _) with (@nil (string * Q)); [done|].
    unfold timestamps in Hpast.
    induction (messages (record_at (guild_id, id (author message)) tr)) as [|[c t] l IH];
      [done|].
    simpl in Hpast. inversion Hpast as [|? ? Ht Hpast']; subst.
    simpl List.filter.
    destruct (ge_cutoff (monotonic env - inject_Z (spam_interval cfg)) (c, t)) eqn:Hge;
      [|by apply IH].
    apply ge_cutoff_iff in Hge. simpl in Hge. exfalso.
    assert (inject_Z (spam_interval cfg) < 0)%Q as Hq.
    { change 0%Q with (inject_Z 0). by rewrite <- Zlt_Qlt. }
    lra. }
  rewrite (handle_quiet cfg tr message env guild_id Hex Hg Hfind).
  - by rewrite Hchecked.
  - rewrite Hchecked. unfold identical_count, same_content. simpl.
    rewrite String.eqb_refl. simpl. lia.
Qed.

Lemma negative_interval_forgets_everything_witness :
  handle (mkConfig None (Some 2) (Some (-1))) Scenario.one_hi
         (Scenario.says 2 "hi", Scenario.calm 0)
  = mkResult NoAction [] None (<[(1, 7) := mkRecord [("hi", 0%Q)]]> Scenario.one_hi).
Proof.
  apply (negative_interval_forgets_everything (mkConfig None (Some 2) (Some (-1)))
           Scenario.one_hi (Scenario.says 2 "hi") (Scenario.calm 0) 1);
    try reflexivity.
  repeat constructor. vm_compute. discriminate.
Defined.
